(** * First-come-first-served location event server (server.js)

    A shallow embedding of the Express handlers of [server.js]: the location
    catalog, the two JSON documents kept on disk (winners and access logs),
    the helpers [loadData] / [saveData], and the seven API routes.

    Conventions of the embedding.
    - A handler is a computation in the monad [Js]: it threads the [World]
      (the disk and the server console) and completes normally or by a thrown
      exception, as a JavaScript function body does.
    - What the handler cannot decide is an explicit argument: the readings of
      the clock and the outcome of each [fs.writeFile].
    - A readable, well-formed file reads back as the document written last;
      a missing or unparsable file is [None].  A readable file holds a
      document of the shape the server itself writes: an object of winner
      records, an array of log entries.
    - A write replaces the document in one step.  A write that fails is one
      the file system refuses when the file is opened (EACCES, EROFS,
      EISDIR): it leaves the file as it was.
    - The [locationId] of a request is a string.
    - Property reads [o[k]] on a plain object follow the prototype chain:
      see [js_get]. *)

From Stdlib Require Import ZArith List String Lia.
From stdpp Require Import base option list gmap strings.

Local Open Scope string_scope.
Local Open Scope Z_scope.

(** ** JavaScript values carried through the handlers *)

(** The request fields [accessTime] and [userAgent] come straight from the
    JSON body and are stored and echoed without inspection. *)
Inductive jsval : Type :=
| JUndefined
| JNull
| JBool (b : bool)
| JNum (z : Z)
| JStr (s : string).

#[global] Instance jsval_eq_dec : EqDecision jsval.
Proof. solve_decision. Defined.

(** [Object.getOwnPropertyNames(Object.prototype)]: the properties every
    plain object ([{...}] literal, [JSON.parse] result) inherits. *)
Definition Object_prototype_keys : list string :=
  [ "constructor"; "__defineGetter__"; "__defineSetter__"; "hasOwnProperty";
    "__lookupGetter__"; "__lookupSetter__"; "isPrototypeOf";
    "propertyIsEnumerable"; "toString"; "valueOf"; "__proto__";
    "toLocaleString" ].

(** Result of the property read [o[k]] on a plain object whose own
    properties are the finite map [o]. *)
Inductive PropRead (V : Type) : Type :=
| Own (v : V)            (* an own property *)
| Inherited (k : string) (* a member of Object.prototype *)
| Missing.               (* undefined *)
Arguments Own {V} v.
Arguments Inherited {V} k.
Arguments Missing {V}.

Definition js_get {V : Type} (o : gmap string V) (k : string) : PropRead V :=
  match o !! k with
  | Some v => Own v
  | None =>
      if bool_decide (k ∈ Object_prototype_keys) then Inherited k else Missing
  end.

(** Truthiness of a property read: objects and functions are truthy,
    [undefined] is not.  This is the test behind [!o[k]] and [!!o[k]]. *)
Definition truthy {V : Type} (r : PropRead V) : bool :=
  match r with
  | Missing => false
  | _ => true
  end.

(** [x.f] for a member [x] of [Object.prototype] and a field [f] among
    [name], [prize], [emoji], [accessTime].  The members are functions, whose
    [name] is the function's name ([Object] for [constructor]); [__proto__]
    reads as [Object.prototype] itself, which has no [name].  None of them
    has the other fields. *)
Definition inherited_field (k : string) (f : string) : jsval :=
  if bool_decide (f = "name") then
    if bool_decide (k = "__proto__") then JUndefined
    else if bool_decide (k = "constructor") then JStr "Object"
    else JStr k
  else JUndefined.

(** ** The location catalog (lines 17-23) *)

Record Location : Type := mkLocation {
  name : string;
  prize : string;
  emoji : string
}.

Definition LOCATIONS_entries : list (string * Location) :=
  [ ("gangnam",    mkLocation "강남역" "스타벅스 아메리카노" "☕");
    ("hongdae",    mkLocation "홍대입구역" "투썸플레이스 케이크" "🍰");
    ("myeongdong", mkLocation "명동역" "이디야 아이스크림" "🍦");
    ("itaewon",    mkLocation "이태원역" "할리스 원두커피" "☕");
    ("jamsil",     mkLocation "잠실역" "메가커피 음료수" "🥤") ].

Definition LOCATIONS : gmap string Location := list_to_map LOCATIONS_entries.

(** [Object.keys(LOCATIONS)], in insertion order. *)
Definition LOCATIONS_keys : list string := LOCATIONS_entries.*1.

(** [LOCATIONS[locationId].f] as it is evaluated after the guard. *)
Definition location_field (r : PropRead Location) (f : string)
    (proj : Location -> string) : jsval :=
  match r with
  | Own l => JStr (proj l)
  | Inherited k => inherited_field k f
  | Missing => JUndefined
  end.

(** [{ ...LOCATIONS[locationId] }] (line 77): the spread copies the own
    enumerable properties, and the members of [Object.prototype] have none. *)
Definition spread_field (r : PropRead Location) (proj : Location -> string)
    : jsval :=
  match r with
  | Own l => JStr (proj l)
  | Inherited _ => JUndefined
  | Missing => JUndefined
  end.

(** ** Records kept on disk *)

Module Req.
(** Body of [POST /api/participate] with the resolved client address. *)
Record t : Type := mk {
  locationId : string;
  accessTime : jsval;
  userAgent : jsval;
  clientIP : string
}.
End Req.

Module Log.
(** The object [accessLog] as built at lines 98-105. *)
Record t : Type := mk {
  id : Z;
  locationId : string;
  accessTime : jsval;
  ip : string;
  userAgent : jsval;
  timestamp : string
}.
End Log.

(** [{ ...accessLog, winner: true }] (lines 113-116): the spread is taken
    before [accessLog.isWinner] is assigned, so a winner record has no
    [isWinner] field. *)
Record WinnerRecord : Type := mkWinner {
  w_log : Log.t;
  winner : bool
}.

(** [accessLog] after [accessLog.isWinner = isWinner] (line 129). *)
Record LogEntry : Type := mkEntry {
  l_log : Log.t;
  isWinner : bool
}.

#[global] Instance Log_eq_dec : EqDecision Log.t.
Proof. solve_decision. Defined.
#[global] Instance WinnerRecord_eq_dec : EqDecision WinnerRecord.
Proof. solve_decision. Defined.
#[global] Instance LogEntry_eq_dec : EqDecision LogEntry.
Proof. solve_decision. Defined.

(** ** The world: two JSON documents and the server console *)

(** [data/winners.json] and [data/logs.json]; [None] is a file that cannot be
    read or parsed. *)
Record Disk : Type := mkDisk {
  winners_json : option (gmap string WinnerRecord);
  logs_json : option (list LogEntry)
}.

Inductive Error : Type :=
| FsError (code : string).

Inductive ConsoleLine : Type :=
| SaveFailed (error : Error)                    (* console.error, line 54 *)
| NewWinner (locationName : jsval) (ip : string) (* console.log, line 119 *)
| AlreadyWon (locationName : jsval) (ip : string) (* console.log, line 125 *)
| EventReset                                    (* console.log, line 187 *)
| ResetFailed (error : Error).                  (* console.error, line 190 *)

Record World : Type := mkWorld {
  disk : Disk;
  console : list ConsoleLine
}.

(** A path together with the type of document stored under it. *)
Record File (A : Type) : Type := mkFile {
  contents : Disk -> option A;
  replace : A -> Disk -> Disk
}.
Arguments contents {A} _ _.
Arguments replace {A} _ _ _.

Definition WINNERS_FILE : File (gmap string WinnerRecord) :=
  {| contents := winners_json;
     replace := fun data d => mkDisk (Some data) (logs_json d) |}.

Definition LOGS_FILE : File (list LogEntry) :=
  {| contents := logs_json;
     replace := fun data d => mkDisk (winners_json d) (Some data) |}.

(** ** Handler computations *)

Inductive Completion (A : Type) : Type :=
| Normal (a : A)
| Throw (e : Error).
Arguments Normal {A} a.
Arguments Throw {A} e.

Definition Js (A : Type) : Type := World -> Completion A * World.

Definition ret {A : Type} (a : A) : Js A := fun w => (Normal a, w).

Definition bind {A B : Type} (m : Js A) (k : A -> Js B) : Js B :=
  fun w =>
    match m w with
    | (Normal a, w') => k a w'
    | (Throw e, w') => (Throw e, w')
    end.

(** [try { body } catch (error) { handler }] *)
Definition try_catch {A : Type} (body : Js A) (handler : Error -> Js A) : Js A :=
  fun w =>
    match body w with
    | (Normal a, w') => (Normal a, w')
    | (Throw e, w') => handler e w'
    end.

Declare Scope js_scope.
Delimit Scope js_scope with js.
Notation "x <- m ;; k" := (bind m (fun x => k))
  (at level 100, m at next level, right associativity) : js_scope.
Notation "m ;; k" := (bind m (fun _ => k))
  (at level 100, right associativity) : js_scope.
Local Open Scope js_scope.

Definition console_print (line : ConsoleLine) : Js unit :=
  fun w => (Normal tt, mkWorld (disk w) (console w ++ [line])%list).

(** [fs.readFile] followed by [JSON.parse]. *)
Definition fs_readFile {A : Type} (filePath : File A) : Js A :=
  fun w =>
    match contents filePath (disk w) with
    | Some data => (Normal data, w)
    | None => (Throw (FsError "ENOENT"), w)
    end.

(** [fs.writeFile(filePath, JSON.stringify(data))]; [fault] is the error the
    file system answers with when it refuses to open the file, if any. *)
Definition fs_writeFile {A : Type} (fault : option Error) (filePath : File A)
    (data : A) : Js unit :=
  fun w =>
    match fault with
    | None => (Normal tt, mkWorld (replace filePath data (disk w)) (console w))
    | Some e => (Throw e, w)
    end.

(** Lines 40-47. *)
Definition loadData {A : Type} (filePath : File A) (defaultValue : A) : Js A :=
  try_catch (fs_readFile filePath) (fun _ => ret defaultValue).

(** Lines 50-56. *)
Definition saveData {A : Type} (fault : option Error) (filePath : File A)
    (data : A) : Js unit :=
  try_catch (fs_writeFile fault filePath data)
            (fun error => console_print (SaveFailed error)).

(** ** Replies *)

(** [res.json(body)] answers with status 200; [res.status(s).json({error})]
    is the failure reply. *)
Inductive Reply (B : Type) : Type :=
| Json (status : Z) (body : B)
| JsonError (status : Z) (error : string).
Arguments Json {B} status body.
Arguments JsonError {B} status error.

Definition failed {B : Type} (c : Completion (Reply B)) : bool :=
  match c with
  | Normal (Json _ _) => false
  | Normal (JsonError _ _) => true
  | Throw _ => true
  end.

Module LocationInfo.
(** Body of [GET /api/locations/:locationId] (lines 76-81). *)
Record t : Type := mk {
  name : jsval;
  prize : jsval;
  emoji : jsval;
  locationId : string;
  hasWinner : bool;
  winnerTime : jsval
}.
End LocationInfo.

Module Participated.
(** Body of [POST /api/participate] (lines 139-146). *)
Record t : Type := mk {
  isWinner : bool;
  locationName : jsval;
  prize : jsval;
  emoji : jsval;
  accessTime : jsval;
  winnerTime : jsval
}.
End Participated.

Module Stats.
Record perLocation : Type := mkPer {
  name : string;
  count : nat;
  hasWinner : bool
}.
(** Body of [GET /api/admin/stats] (lines 200-205). *)
Record t : Type := mk {
  totalLocations : nat;
  winnersCount : nat;
  totalParticipants : nat;
  participantsByLocation : gmap string perLocation
}.
End Stats.

Definition unknown_location : string := "존재하지 않는 장소입니다.".
Definition reset_done : string := "이벤트가 초기화되었습니다.".
Definition reset_failed : string := "초기화에 실패했습니다.".

(** ** What the handlers take from their environment *)

Record Clock : Type := mkClock {
  Date_now : Z;                   (* Date.now(), line 99 *)
  new_Date_toISOString : string   (* new Date().toISOString(), line 104 *)
}.

Record Writes : Type := mkWrites {
  winners_write : option Error;   (* answer to writing winners.json *)
  logs_write : option Error       (* answer to writing logs.json *)
}.

Definition writes_ok : Writes := mkWrites None None.

(** ** Pieces of [POST /api/participate] *)

(** [winners[locationId].accessTime] on a truthy read. *)
Definition winner_accessTime (r : PropRead WinnerRecord) : jsval :=
  match r with
  | Own w => Log.accessTime (w_log w)
  | Inherited k => inherited_field k "accessTime"
  | Missing => JUndefined
  end.

(** Lines 98-105. *)
Definition make_accessLog (clock : Clock) (req : Req.t) : Log.t :=
  {| Log.id := Date_now clock;
     Log.locationId := Req.locationId req;
     Log.accessTime := Req.accessTime req;
     Log.ip := Req.clientIP req;
     Log.userAgent := Req.userAgent req;
     Log.timestamp := new_Date_toISOString clock |}.

(** Lines 130-135: [logs.push(accessLog)], then
    [logs.splice(0, logs.length - 1000)] when more than 1000 are held. *)
Definition push_and_trim (logs : list LogEntry) (accessLog : LogEntry)
    : list LogEntry :=
  let logs := (logs ++ [accessLog])%list in
  if (1000 <? length logs)%nat then drop (length logs - 1000) logs else logs.

(** Lines 139-146. *)
Definition participate_reply (req : Req.t) (isWinner : bool)
    (winnerTime : jsval) : Reply Participated.t :=
  let loc := js_get LOCATIONS (Req.locationId req) in
  Json 200
    {| Participated.isWinner := isWinner;
       Participated.locationName := location_field loc "name" name;
       Participated.prize := location_field loc "prize" prize;
       Participated.emoji := location_field loc "emoji" emoji;
       Participated.accessTime := Req.accessTime req;
       Participated.winnerTime := winnerTime |}.

(** ** The routes *)

(** [GET /api/locations] (lines 61-63). *)
Definition get_locations : Js (Reply (gmap string Location)) :=
  ret (Json 200 LOCATIONS).

(** [GET /api/locations/:locationId] (lines 66-82). *)
Definition get_location (locationId : string) : Js (Reply LocationInfo.t) :=
  let loc := js_get LOCATIONS locationId in
  if negb (truthy loc) then ret (JsonError 404 unknown_location)
  else
    winners <- loadData WINNERS_FILE ∅ ;;
    let hasWinner := truthy (js_get winners locationId) in
    ret (Json 200
      {| LocationInfo.name := spread_field loc name;
         LocationInfo.prize := spread_field loc prize;
         LocationInfo.emoji := spread_field loc emoji;
         LocationInfo.locationId := locationId;
         LocationInfo.hasWinner := hasWinner;
         LocationInfo.winnerTime :=
           if hasWinner then winner_accessTime (js_get winners locationId)
           else JNull |}).

(** [POST /api/participate] (lines 85-147). *)
Definition participate (clock : Clock) (io : Writes) (req : Req.t)
    : Js (Reply Participated.t) :=
  let locationId := Req.locationId req in
  let loc := js_get LOCATIONS locationId in
  if negb (truthy loc) then ret (JsonError 400 unknown_location)
  else
    winners <- loadData WINNERS_FILE ∅ ;;
    logs <- loadData LOGS_FILE [] ;;
    let accessLog := make_accessLog clock req in
    verdict <-
      (if negb (truthy (js_get winners locationId)) then
         console_print
           (NewWinner (location_field loc "name" name) (Req.clientIP req)) ;;
         saveData (winners_write io) WINNERS_FILE
                  (<[locationId := mkWinner accessLog true]> winners) ;;
         ret (true, JNull)
       else
         console_print
           (AlreadyWon (location_field loc "name" name) (Req.clientIP req)) ;;
         ret (false, winner_accessTime (js_get winners locationId))) ;;
    saveData (logs_write io) LOGS_FILE
             (push_and_trim logs (mkEntry accessLog (fst verdict))) ;;
    ret (participate_reply req (fst verdict) (snd verdict)).

(** [GET /api/admin/winners] (lines 150-163).  The assignment
    [winnersWithLocation[locationId] = ...] of line 156 adds a property,
    except under the name [__proto__], the accessor of [Object.prototype]:
    there it replaces the prototype of the reply, and the entry is not part
    of the JSON sent. *)
Definition admin_winners
    : Js (Reply (gmap string (WinnerRecord * PropRead Location))) :=
  winners <- loadData WINNERS_FILE ∅ ;;
  ret (Json 200
         (map_imap (fun locationId winner =>
                      if bool_decide (locationId = "__proto__") then None
                      else Some (winner, js_get LOCATIONS locationId))
                   winners)).

(** [GET /api/admin/logs] (lines 166-179): [logs.slice(-100).reverse()]. *)
Definition admin_logs : Js (Reply (list (LogEntry * PropRead Location))) :=
  logs <- loadData LOGS_FILE [] ;;
  let recentLogs := rev (drop (length logs - 100) logs) in
  ret (Json 200
         (map (fun log =>
                 (log, js_get LOCATIONS (Log.locationId (l_log log))))
              recentLogs)).

(** The [try] block of [POST /api/admin/reset] (lines 184-188). *)
Definition admin_reset_try (io : Writes) : Js (Reply string) :=
  saveData (winners_write io) WINNERS_FILE ∅ ;;
  saveData (logs_write io) LOGS_FILE [] ;;
  console_print EventReset ;;
  ret (Json 200 reset_done).

(** [POST /api/admin/reset] (lines 182-193). *)
Definition admin_reset (io : Writes) : Js (Reply string) :=
  try_catch (admin_reset_try io)
    (fun error =>
       console_print (ResetFailed error) ;;
       ret (JsonError 500 reset_failed)).

(** The object [stats] built at lines 200-214. *)
Definition make_stats (winners : gmap string WinnerRecord)
    (logs : list LogEntry) : Stats.t :=
  {| Stats.totalLocations := length LOCATIONS_keys;
     Stats.winnersCount := size winners;
     Stats.totalParticipants := length logs;
     Stats.participantsByLocation :=
       foldl (fun acc locationId =>
                match LOCATIONS !! locationId with
                | Some l =>
                    <[locationId :=
                        {| Stats.name := name l;
                           Stats.count :=
                             length (filter
                               (fun log => Log.locationId (l_log log) = locationId)
                               logs);
                           Stats.hasWinner :=
                             truthy (js_get winners locationId) |}]> acc
                | None => acc
                end)
             ∅ LOCATIONS_keys |}.

(** [GET /api/admin/stats] (lines 196-217). *)
Definition admin_stats : Js (Reply Stats.t) :=
  winners <- loadData WINNERS_FILE ∅ ;;
  logs <- loadData LOGS_FILE [] ;;
  ret (Json 200 (make_stats winners logs)).

(** ** Requests in flight

    [POST /api/participate] is an [async] function: it runs until an [await]
    and is resumed when the awaited file operation has completed, and other
    handlers run in between.  A [Task] is a handler suspended at one of its
    four [await]s, with the local variables it holds there. *)

Inductive Task : Type :=
| Arrived (req : Req.t)
    (* line 85, not started *)
| AwaitWinners (req : Req.t)
    (* line 94, reading winners.json *)
| AwaitLogs (req : Req.t) (winners : gmap string WinnerRecord)
    (* line 95, reading logs.json *)
| AwaitSaveWinners (req : Req.t) (accessLog : Log.t)
    (winners : gmap string WinnerRecord) (logs : list LogEntry)
    (* line 122, writing winners.json *)
| AwaitSaveLogs (req : Req.t) (isWinner : bool) (winnerTime : jsval)
    (logs : list LogEntry)
    (* line 137, writing logs.json *)
| Replied (reply : Reply Participated.t)
| Crashed (error : Error).

(** Complete the awaited operation against the world as it is now and run
    the handler up to its next [await]. *)
Definition resume (clock : Clock) (io : Writes) (t : Task) : Js Task :=
  match t with
  | Arrived req =>
      if negb (truthy (js_get LOCATIONS (Req.locationId req)))
      then ret (Replied (JsonError 400 unknown_location))
      else ret (AwaitWinners req)
  | AwaitWinners req =>
      winners <- loadData WINNERS_FILE ∅ ;;
      ret (AwaitLogs req winners)
  | AwaitLogs req winners =>
      let locationId := Req.locationId req in
      let loc := js_get LOCATIONS locationId in
      logs <- loadData LOGS_FILE [] ;;
      let accessLog := make_accessLog clock req in
      if negb (truthy (js_get winners locationId)) then
        console_print
          (NewWinner (location_field loc "name" name) (Req.clientIP req)) ;;
        ret (AwaitSaveWinners req accessLog
               (<[locationId := mkWinner accessLog true]> winners) logs)
      else
        console_print
          (AlreadyWon (location_field loc "name" name) (Req.clientIP req)) ;;
        ret (AwaitSaveLogs req false
               (winner_accessTime (js_get winners locationId))
               (push_and_trim logs (mkEntry accessLog false)))
  | AwaitSaveWinners req accessLog winners logs =>
      saveData (winners_write io) WINNERS_FILE winners ;;
      ret (AwaitSaveLogs req true JNull
             (push_and_trim logs (mkEntry accessLog true)))
  | AwaitSaveLogs req isWinner winnerTime logs =>
      saveData (logs_write io) LOGS_FILE logs ;;
      ret (Replied (participate_reply req isWinner winnerTime))
  | Replied reply => ret (Replied reply)
  | Crashed error => ret (Crashed error)
  end.

Record Server : Type := mkServer {
  world : World;
  tasks : list Task
}.

(** One turn of the event loop: task [i] is resumed. *)
Definition turn (i : nat) (clock : Clock) (io : Writes) (s : Server) : Server :=
  match tasks s !! i with
  | None => s
  | Some t =>
      match resume clock io t (world s) with
      | (Normal t', w') => mkServer w' (<[i := t']> (tasks s))
      | (Throw e, w') => mkServer w' (<[i := Crashed e]> (tasks s))
      end
  end.

(** A schedule names, turn by turn, the task resumed and what the clock and
    the file system answer during that turn. *)
Definition run_schedule (schedule : list (nat * Clock * Writes)) (s : Server)
    : Server :=
  foldl (fun s '(i, clock, io) => turn i clock io s) s schedule.

(** A handler that is never interleaved with another one. *)
Fixpoint run_alone (turns : nat) (clock : Clock) (io : Writes) (t : Task)
    (w : World) : Task * World :=
  match turns with
  | O => (t, w)
  | S n =>
      match resume clock io t w with
      | (Normal t', w') => run_alone n clock io t' w'
      | (Throw e, w') => (Crashed e, w')
      end
  end.

(** ** Calls served one after the other *)

Inductive Call : Type :=
| GET_locations
| GET_location (locationId : string)
| POST_participate (clock : Clock) (io : Writes) (req : Req.t)
| GET_admin_winners
| GET_admin_logs
| POST_admin_reset (io : Writes)
| GET_admin_stats.

Definition serve (c : Call) (w : World) : World :=
  match c with
  | GET_locations => snd (get_locations w)
  | GET_location locationId => snd (get_location locationId w)
  | POST_participate clock io req => snd (participate clock io req w)
  | GET_admin_winners => snd (admin_winners w)
  | GET_admin_logs => snd (admin_logs w)
  | POST_admin_reset io => snd (admin_reset io w)
  | GET_admin_stats => snd (admin_stats w)
  end.

Definition serve_all (calls : list Call) (w : World) : World :=
  foldl (fun w c => serve c w) w calls.

Definition is_reset (c : Call) : bool :=
  match c with
  | POST_admin_reset _ => true
  | _ => false
  end.

(** The server before any request: no data file has been written. *)
Definition fresh : World := mkWorld (mkDisk None None) [].

(** What a handler finds on disk. *)
Definition stored_winners (w : World) : gmap string WinnerRecord :=
  default ∅ (winners_json (disk w)).

Definition stored_logs (w : World) : list LogEntry :=
  default [] (logs_json (disk w)).

(** The most recent [n] elements of a list. *)
Definition most_recent {A : Type} (n : nat) (l : list A) : list A :=
  drop (length l - n) l.

(** The world [saveData] leaves behind. *)
Definition after_save {A : Type} (fault : option Error) (filePath : File A)
    (data : A) (w : World) : World :=
  match fault with
  | None => mkWorld (replace filePath data (disk w)) (console w)
  | Some e => mkWorld (disk w) (console w ++ [SaveFailed e])%list
  end.


(** The console after the handler has announced its verdict. *)
Definition announce (line : ConsoleLine) (w : World) : World :=
  mkWorld (disk w) (console w ++ [line])%list.

(** [LOCATIONS[locationId].name] as printed by lines 119 and 125. *)
Definition printed_name (req : Req.t) : jsval :=
  location_field (js_get LOCATIONS (Req.locationId req)) "name" name.

(** ** Sample traffic *)

Definition tick1 : Clock := mkClock 1704067205000 "2024-01-01T00:00:05.000Z".
Definition tick2 : Clock := mkClock 1704067206000 "2024-01-01T00:00:06.000Z".
Definition tick3 : Clock := mkClock 1704067207000 "2024-01-01T00:00:07.000Z".

(** Two phones at the Gangnam poster and one at Hongdae; the first phone's
    own clock is five seconds behind the server's. *)
Definition phone1 : Req.t :=
  Req.mk "gangnam" (JStr "2024-01-01T00:00:00.000Z") (JStr "Mozilla/5.0 (A)")
         "203.0.113.7".
Definition phone2 : Req.t :=
  Req.mk "gangnam" (JStr "2024-01-01T00:00:06.100Z") (JStr "Mozilla/5.0 (B)")
         "203.0.113.8".
Definition phone3 : Req.t :=
  Req.mk "hongdae" (JStr "2024-01-01T00:00:06.200Z") (JStr "Mozilla/5.0 (C)")
         "203.0.113.9".

(** A request naming a property of [Object.prototype]. *)
Definition probe : Req.t :=
  Req.mk "constructor" (JStr "2024-01-01T00:00:00.000Z") (JStr "curl/8.5.0")
         "198.51.100.1".

(** The data directory has been made read-only. *)
Definition write_denied : Error := FsError "EACCES".

(** ** Visits served in a row *)

(** One [POST /api/participate] with what the clock and the file system
    answer while it is served. *)
Definition Visit : Type := (Clock * Writes * Req.t)%type.

Definition visit_call (v : Visit) : Call :=
  POST_participate v.1.1 v.1.2 v.2.

(** The [accessLog] object the handler builds for this visit. *)
Definition visit_log (v : Visit) : Log.t := make_accessLog v.1.1 v.2.

(** The visit passes the guard of line 89 and its write of logs.json
    succeeds. *)
Definition logged (v : Visit) : bool :=
  truthy (js_get LOCATIONS (Req.locationId v.2))
  && bool_decide (logs_write v.1.2 = None).

(** 1005 visits, one per millisecond, alternating between two posters. *)
Definition rush : list Visit :=
  map (fun i : nat =>
         (mkClock (1704067200000 + Z.of_nat i) "2024-01-01T00:00:00.000Z",
          writes_ok,
          if Nat.even i then phone1 else phone3))
      (seq 0 1005).

(** ** Sample schedules *)

(** Two handlers resumed in alternation: each one reads winners.json before
    the other has written it. *)
Definition alternate (clock0 clock1 : Clock) : list (nat * Clock * Writes) :=
  concat (replicate 5 [ (0%nat, clock0, writes_ok); (1%nat, clock1, writes_ok) ]).

(** The first handler runs to its reply before the second one starts. *)
Definition in_turn (clock0 clock1 : Clock) : list (nat * Clock * Writes) :=
  (replicate 5 (0%nat, clock0, writes_ok)
   ++ replicate 5 (1%nat, clock1, writes_ok))%list.

(** The second handler reads winners.json, the first one then runs from its
    start to its reply, and only then does the second one go on: no two
    writes are in flight together. *)
Definition straggler (clock0 clock1 : Clock) : list (nat * Clock * Writes) :=
  (replicate 2 (1%nat, clock1, writes_ok)
   ++ replicate 5 (0%nat, clock0, writes_ok)
   ++ replicate 3 (1%nat, clock1, writes_ok))%list.

(** The replies of visits served one after the other. *)
Fixpoint serve_visits (visits : list Visit) (w : World)
    : list (Completion (Reply Participated.t)) * World :=
  match visits with
  | [] => ([], w)
  | v :: visits =>
      let '(reply, w') := participate v.1.1 v.1.2 v.2 w in
      let '(replies, w'') := serve_visits visits w' in
      (reply :: replies, w'')
  end.

(** The verdict carried by a reply, if it carries one. *)
Definition verdict (c : Completion (Reply Participated.t)) : option bool :=
  match c with
  | Normal (Json _ body) => Some (Participated.isWinner body)
  | _ => None
  end.

Definition task_verdict (t : Task) : option bool :=
  match t with
  | Replied reply => verdict (Normal reply)
  | _ => None
  end.

(** The [accessLog] object a suspended handler holds, once it has built it. *)
Definition task_accessLog (t : Task) : option Log.t :=
  match t with
  | AwaitSaveWinners _ accessLog _ _ => Some accessLog
  | AwaitSaveLogs _ _ _ logs => l_log <$> last logs
  | _ => None
  end.

Definition log_ids (logs : list LogEntry) : list Z :=
  map (fun log => Log.id (l_log log)) logs.

(** ** Views of a reply *)

(** The HTTP status of a completed handler; [None] is a handler that threw,
    whose request is never answered. *)
Definition status_of {B : Type} (c : Completion (Reply B)) : option Z :=
  match c with
  | Normal (Json status _) => Some status
  | Normal (JsonError status _) => Some status
  | Throw _ => None
  end.

(** The body of a 200 reply. *)
Definition body_of {B : Type} (c : Completion (Reply B)) : option B :=
  match c with
  | Normal (Json _ body) => Some body
  | _ => None
  end.

(** The process is stopped and started again: the console is gone, the files
    stay. *)
Definition restart (w : World) : World := mkWorld (disk w) [].

(** A log entry as the logs view returns it: [{ ...log, locationInfo }]. *)
Definition with_locationInfo (log : LogEntry) : LogEntry * PropRead Location :=
  (log, js_get LOCATIONS (Log.locationId (l_log log))).

(** ** Invariants of the two documents *)

(** Every record of a winners document is stored under a catalog key and is
    marked [winner: true]. *)
Definition winners_in_catalog (winners : gmap string WinnerRecord) : Prop :=
  forall (k : string) (r : WinnerRecord),
    winners !! k = Some r ->
    is_Some (LOCATIONS !! k) /\ winner r = true.

(** What a suspended handler holds satisfies the invariants of the documents
    it is going to write. *)
Definition task_in_catalog (t : Task) : Prop :=
  match t with
  | Arrived _ => True
  | AwaitWinners req => truthy (js_get LOCATIONS (Req.locationId req)) = true
  | AwaitLogs req winners =>
      truthy (js_get LOCATIONS (Req.locationId req)) = true
      /\ winners_in_catalog winners
  | AwaitSaveWinners _ _ winners _ => winners_in_catalog winners
  | _ => True
  end.

Definition task_log_bounded (t : Task) : Prop :=
  match t with
  | AwaitSaveLogs _ _ _ logs => (length logs <= 1000)%nat
  | _ => True
  end.


Definition has_replied (t : Task) : bool :=
  match t with
  | Replied _ => true
  | _ => false
  end.



(** ** Sums over the statistics *)

(** The per-location counts of a statistics object, added up over the
    catalog keys. *)
Definition counted_visits (stats : Stats.t) : nat :=
  sum_list (map (fun k => from_option Stats.count 0%nat
                            (Stats.participantsByLocation stats !! k))
                LOCATIONS_keys).

(** The log entries whose [locationId] is a catalog key. *)
Definition catalog_visits (logs : list LogEntry) : list LogEntry :=
  filter (fun log => Log.locationId (l_log log) ∈ LOCATIONS_keys) logs.

(** ** First come, first served *)

(** The verdicts a first-come-first-served rule gives to visits in arrival
    order, [taken] being the locations that already have a winner: a visit
    wins when its location is not taken, and then takes it. *)
Fixpoint first_come (taken : list string) (visits : list Visit)
    : list (option bool) :=
  match visits with
  | [] => []
  | v :: visits =>
      Some (bool_decide (Req.locationId v.2 ∉ taken))
      :: first_come (Req.locationId v.2 :: taken) visits
  end.

(** The visit names a catalog location and its write of winners.json
    succeeds. *)
Definition recorded (v : Visit) : Prop :=
  is_Some (LOCATIONS !! Req.locationId v.2) /\ winners_write v.1.2 = None.

(** The catalog locations a statistics object flags with [hasWinner]. *)
Definition flagged_locations (stats : Stats.t) : list string :=
  filter (fun k => from_option Stats.hasWinner false
                     (Stats.participantsByLocation stats !! k) = true)
         LOCATIONS_keys.

(** The console lines [saveData] prints for the answer of the file system. *)
Definition save_report (fault : option Error) : list ConsoleLine :=
  match fault with
  | None => []
  | Some e => [SaveFailed e]
  end.

(** * Properties *)

(** ** The helpers *)

Lemma loadData_spec {A : Type} (filePath : File A) (defaultValue : A) (w : World) :
  loadData filePath defaultValue w
  = (Normal (default defaultValue (contents filePath (disk w))), w).
Proof.
  unfold loadData, try_catch, fs_readFile, ret.
  destruct (contents filePath (disk w)); reflexivity.
Qed.

Lemma saveData_written {A : Type} (filePath : File A) (data : A) (w : World) :
  saveData None filePath data w
  = (Normal tt, mkWorld (replace filePath data (disk w)) (console w)).
Proof. reflexivity. Qed.

Lemma saveData_swallows {A : Type} (e : Error) (filePath : File A) (data : A)
    (w : World) :
  saveData (Some e) filePath data w
  = (Normal tt, mkWorld (disk w) (console w ++ [SaveFailed e])%list).
Proof. reflexivity. Qed.

(** [saveData] never throws, whatever the file system answers. *)
Lemma saveData_returns {A : Type} (fault : option Error) (filePath : File A)
    (data : A) (w : World) :
  fst (saveData fault filePath data w) = Normal tt.
Proof. destruct fault; reflexivity. Qed.

Lemma saveData_spec {A : Type} (fault : option Error) (filePath : File A)
    (data : A) (w : World) :
  saveData fault filePath data w = (Normal tt, after_save fault filePath data w).
Proof. destruct fault; reflexivity. Qed.

(** ** [POST /api/participate], case by case *)

(** Run the two [loadData] calls that open a handler started in world [w]. *)
Ltac load_documents w :=
  repeat (unfold bind at 1; rewrite loadData_spec; try unfold ret at 1);
  try change (default ∅ (contents WINNERS_FILE (disk w))) with (stored_winners w);
  try change (default [] (contents LOGS_FILE (disk w))) with (stored_logs w).

(** Run what is left of a handler once its branch is known. *)
Ltac run_writes :=
  unfold bind, console_print, ret; rewrite ?saveData_spec; reflexivity.

Section ParticipateCases.

Variables (clock : Clock) (io : Writes) (req : Req.t) (w : World).

(** The guard of line 89 refuses the identifier. *)
Lemma participate_unknown :
  truthy (js_get LOCATIONS (Req.locationId req)) = false ->
  participate clock io req w = (Normal (JsonError 400 unknown_location), w).
Proof. intros H. unfold participate. rewrite H. reflexivity. Qed.

Hypothesis guard_passed : truthy (js_get LOCATIONS (Req.locationId req)) = true.

(** Lines 111-122: no winner is found. *)
Lemma participate_first :
  truthy (js_get (stored_winners w) (Req.locationId req)) = false ->
  participate clock io req w
  = (Normal (participate_reply req true JNull),
     after_save (logs_write io) LOGS_FILE
       (push_and_trim (stored_logs w) (mkEntry (make_accessLog clock req) true))
       (after_save (winners_write io) WINNERS_FILE
          (<[Req.locationId req := mkWinner (make_accessLog clock req) true]>
             (stored_winners w))
          (announce (NewWinner (printed_name req) (Req.clientIP req)) w))).
Proof.
  intros Hwin. unfold participate. rewrite guard_passed. cbn [negb].
  load_documents w. rewrite Hwin. cbn [negb]. run_writes.
Qed.

(** Lines 123-126: a winner is found. *)
Lemma participate_later :
  truthy (js_get (stored_winners w) (Req.locationId req)) = true ->
  participate clock io req w
  = (Normal (participate_reply req false
               (winner_accessTime (js_get (stored_winners w) (Req.locationId req)))),
     after_save (logs_write io) LOGS_FILE
       (push_and_trim (stored_logs w) (mkEntry (make_accessLog clock req) false))
       (announce (AlreadyWon (printed_name req) (Req.clientIP req)) w)).
Proof.
  intros Hwin. unfold participate. rewrite guard_passed. cbn [negb].
  load_documents w. rewrite Hwin. cbn [negb]. run_writes.
Qed.

End ParticipateCases.

(** ** What is on disk after a write *)

Lemma stored_winners_after_logs (fault : option Error) (data : list LogEntry)
    (w : World) :
  winners_json (disk (after_save fault LOGS_FILE data w)) = winners_json (disk w).
Proof. destruct fault; reflexivity. Qed.

Lemma stored_logs_after_winners (fault : option Error)
    (data : gmap string WinnerRecord) (w : World) :
  logs_json (disk (after_save fault WINNERS_FILE data w)) = logs_json (disk w).
Proof. destruct fault; reflexivity. Qed.

Lemma after_save_fault_disk {A : Type} (e : Error) (filePath : File A) (data : A)
    (w : World) :
  disk (after_save (Some e) filePath data w) = disk w.
Proof. reflexivity. Qed.

Lemma after_save_fault_console {A : Type} (e : Error) (filePath : File A)
    (data : A) (w : World) :
  console (after_save (Some e) filePath data w) = (console w ++ [SaveFailed e])%list.
Proof. reflexivity. Qed.

(** ** Property reads *)

Lemma js_get_own {V : Type} (o : gmap string V) (k : string) (v : V) :
  o !! k = Some v -> js_get o k = Own v.
Proof. intros H. unfold js_get. rewrite H. reflexivity. Qed.

Lemma truthy_own {V : Type} (o : gmap string V) (k : string) (v : V) :
  o !! k = Some v -> truthy (js_get o k) = true.
Proof. intros H. rewrite (js_get_own _ _ _ H). reflexivity. Qed.

Lemma falsy_iff {V : Type} (o : gmap string V) (k : string) :
  truthy (js_get o k) = false <-> o !! k = None /\ k ∉ Object_prototype_keys.
Proof.
  unfold js_get. destruct (o !! k) as [v|] eqn:E.
  - split; [discriminate | intros [? _]; discriminate].
  - case_bool_decide as Hk; cbn.
    + split; [discriminate | intros [_ Hn]; contradiction].
    + split; [intros _; split; [reflexivity | exact Hk] | reflexivity].
Qed.

Lemma catalog_keys (k : string) (l : Location) :
  LOCATIONS !! k = Some l -> (k, l) ∈ LOCATIONS_entries.
Proof. intros H. apply elem_of_list_to_map_2. exact H. Qed.

Lemma catalog_key_not_inherited (k : string) (l : Location) :
  LOCATIONS !! k = Some l -> k ∉ Object_prototype_keys.
Proof.
  intros H. apply catalog_keys in H. unfold LOCATIONS_entries in H.
  repeat (apply elem_of_cons in H as [H|H];
          [inversion H; subst; apply (bool_decide_unpack _); vm_compute; exact I |]).
  apply elem_of_nil in H. contradiction.
Qed.

(** On a catalog identifier, [!!winners[k]] says whether [k] is a key of
    the winners document. *)
Lemma hasWinner_catalog (winners : gmap string WinnerRecord) (k : string)
    (l : Location) :
  LOCATIONS !! k = Some l ->
  truthy (js_get winners k) = bool_decide (is_Some (winners !! k)).
Proof.
  intros H. unfold js_get. destruct (winners !! k) as [v|] eqn:E.
  - symmetry. apply bool_decide_eq_true. eauto.
  - rewrite (bool_decide_eq_false_2 _ (catalog_key_not_inherited _ _ H)).
    symmetry. apply bool_decide_eq_false. intros [? ?]. discriminate.
Qed.

(** ** Write failures *)

(** C10: the [catch] branch of [POST /api/admin/reset] is never entered.
    [saveData] returns normally whatever the file system answers, so whatever
    happens to the two writes the [try] block completes normally, the reply
    is the 200 confirmation message and the last console line is the one
    announcing the reset; when both writes fail the reply is the one of a
    successful reset although the disk is untouched. *)
Theorem reset_always_confirms (io : Writes) (e1 e2 : Error) (w : World) :
  (forall (A : Type) (fault : option Error) (filePath : File A) (data : A),
      fst (saveData fault filePath data w) = Normal tt)
  /\ (exists w', admin_reset_try io w = (Normal (Json 200 reset_done), w'))
  /\ fst (admin_reset io w) = Normal (Json 200 reset_done)
  /\ last (console (snd (admin_reset io w))) = Some EventReset
  /\ fst (admin_reset (mkWrites (Some e1) (Some e2)) w)
     = fst (admin_reset writes_ok w)
  /\ disk (snd (admin_reset (mkWrites (Some e1) (Some e2)) w)) = disk w.
Proof.
  assert (Htry : forall io0,
             admin_reset_try io0 w
             = (Normal (Json 200 reset_done),
                announce EventReset
                  (after_save (logs_write io0) LOGS_FILE []
                     (after_save (winners_write io0) WINNERS_FILE ∅ w)))).
  { intros io0. unfold admin_reset_try, bind.
    rewrite !saveData_spec. reflexivity. }
  assert (Hall : forall io0,
             admin_reset io0 w
             = (Normal (Json 200 reset_done),
                announce EventReset
                  (after_save (logs_write io0) LOGS_FILE []
                     (after_save (winners_write io0) WINNERS_FILE ∅ w)))).
  { intros io0. unfold admin_reset, try_catch. rewrite Htry. reflexivity. }
  split; [intros A fault filePath data; apply saveData_returns |].
  split; [eexists; apply Htry |].
  rewrite !Hall. cbn [fst snd].
  split; [reflexivity |].
  split; [unfold announce; cbn [console]; apply last_snoc |].
  split; reflexivity.
Qed.

(** C3, as stated, fails: the first visit to Gangnam while the data
    directory is read-only.  The write of winners.json fails, and the caller
    is told it has won. *)
Lemma failed_write_answers_success :
  winners_write (mkWrites (Some write_denied) None) = Some write_denied
  /\ failed (fst (participate tick1 (mkWrites (Some write_denied) None) phone1 fresh))
     = false
  /\ fst (participate tick1 (mkWrites (Some write_denied) None) phone1 fresh)
     = Normal (participate_reply phone1 true JNull)
  /\ winners_json
       (disk (snd (participate tick1 (mkWrites (Some write_denied) None) phone1 fresh)))
     = None.
Proof. vm_compute. repeat split; reflexivity. Qed.

(** C3, amended: a failed write is caught inside [saveData] and printed on
    the server console; nothing is propagated.  The caller of
    [POST /api/participate] gets the 200 reply it would have got had every
    write succeeded; the failure of the write of winners.json, which the
    first visitor of a location attempts, and the failure of the write of
    logs.json are each found on the console. *)
Theorem write_failure_is_swallowed (clock : Clock) (io : Writes) (req : Req.t)
    (w : World) :
  truthy (js_get LOCATIONS (Req.locationId req)) = true ->
  let w' := snd (participate clock io req w) in
  failed (fst (participate clock io req w)) = false
  /\ fst (participate clock io req w) = fst (participate clock writes_ok req w)
  /\ (forall e,
        winners_write io = Some e ->
        truthy (js_get (stored_winners w) (Req.locationId req)) = false ->
        SaveFailed e ∈ console w')
  /\ (forall e,
        logs_write io = Some e ->
        last (console w') = Some (SaveFailed e)).
Proof.
  intros Hloc w'. subst w'.
  destruct (truthy (js_get (stored_winners w) (Req.locationId req))) eqn:Hwin.
  - rewrite !(participate_later _ _ _ _ Hloc Hwin). cbn [fst snd].
    split; [reflexivity |]. split; [reflexivity |].
    split; [intros e _ Hfalse; discriminate Hfalse |].
    intros e ->. apply last_snoc.
  - rewrite !(participate_first _ _ _ _ Hloc Hwin). cbn [fst snd].
    split; [reflexivity |]. split; [reflexivity |].
    split.
    + intros e -> _.
      assert (Hin : SaveFailed e
                    ∈ console (after_save (Some e) WINNERS_FILE
                                 (<[Req.locationId req :=
                                      mkWinner (make_accessLog clock req) true]>
                                    (stored_winners w))
                                 (announce (NewWinner (printed_name req)
                                              (Req.clientIP req)) w))).
      { cbn [after_save console]. apply elem_of_app. right.
        apply elem_of_cons. left. reflexivity. }
      destruct (logs_write io) as [e'|]; cbn [after_save console].
      * apply elem_of_app. left. exact Hin.
      * exact Hin.
    + intros e ->. apply last_snoc.
Qed.

Lemma write_failure_is_swallowed_witness :
  failed (fst (participate tick1 (mkWrites (Some write_denied) (Some write_denied))
                 phone1 fresh)) = false
  /\ SaveFailed write_denied
     ∈ console (snd (participate tick1
                       (mkWrites (Some write_denied) (Some write_denied))
                       phone1 fresh)).
Proof.
  pose proof (write_failure_is_swallowed tick1
                (mkWrites (Some write_denied) (Some write_denied)) phone1 fresh
                eq_refl) as (H1 & _ & H3 & _).
  split; [exact H1 |].
  exact (H3 write_denied eq_refl eq_refl).
Defined.

(** ** The time shown to a late visitor *)

(** C4, as stated, fails: [phone1] wins Gangnam at server time 00:00:05
    while reporting 00:00:00; [phone2] is then shown the reported time, not
    the server's. *)
Lemma winnerTime_is_not_server_time :
  let w1 := snd (participate tick1 writes_ok phone1 fresh) in
  exists rec body,
    stored_winners w1 !! "gangnam" = Some rec
    /\ fst (participate tick2 writes_ok phone2 w1) = Normal (Json 200 body)
    /\ Participated.isWinner body = false
    /\ Log.timestamp (w_log rec) = "2024-01-01T00:00:05.000Z"
    /\ Participated.winnerTime body = JStr "2024-01-01T00:00:00.000Z"
    /\ Participated.winnerTime body <> JStr (Log.timestamp (w_log rec)).
Proof.
  eexists _, _. vm_compute.
  repeat split; try reflexivity. discriminate.
Qed.

(** C4, amended: when the location already has a winner, [winnerTime] in the
    reply is the [accessTime] field of the stored winner record, and that
    field is the time the winning client reported in its own request (its
    server time is kept apart, in [timestamp]). *)
Theorem winnerTime_is_reported_time :
  (forall (clock : Clock) (io : Writes) (req : Req.t) (w : World)
          (rec : WinnerRecord),
      truthy (js_get LOCATIONS (Req.locationId req)) = true ->
      stored_winners w !! Req.locationId req = Some rec ->
      fst (participate clock io req w)
      = Normal (participate_reply req false (Log.accessTime (w_log rec))))
  /\ (forall (clock1 clock2 : Clock) (io1 io2 : Writes) (first later : Req.t)
             (w : World),
        truthy (js_get LOCATIONS (Req.locationId first)) = true ->
        truthy (js_get (stored_winners w) (Req.locationId first)) = false ->
        winners_write io1 = None ->
        Req.locationId later = Req.locationId first ->
        let w1 := snd (participate clock1 io1 first w) in
        stored_winners w1 !! Req.locationId first
        = Some {| w_log :=
                    {| Log.id := Date_now clock1;
                       Log.locationId := Req.locationId first;
                       Log.accessTime := Req.accessTime first;
                       Log.ip := Req.clientIP first;
                       Log.userAgent := Req.userAgent first;
                       Log.timestamp := new_Date_toISOString clock1 |};
                  winner := true |}
        /\ fst (participate clock2 io2 later w1)
           = Normal (participate_reply later false (Req.accessTime first))).
Proof.
  assert (Hlater : forall clock io req w rec,
             truthy (js_get LOCATIONS (Req.locationId req)) = true ->
             stored_winners w !! Req.locationId req = Some rec ->
             fst (participate clock io req w)
             = Normal (participate_reply req false (Log.accessTime (w_log rec)))).
  { intros clock io req w rec Hloc Hrec.
    rewrite (participate_later _ _ _ _ Hloc (truthy_own _ _ _ Hrec)).
    cbn [fst]. rewrite (js_get_own _ _ _ Hrec). reflexivity. }
  split; [exact Hlater |].
  intros clock1 clock2 io1 io2 first later w Hloc Hnone Hok Hsame w1.
  assert (Hrec : stored_winners w1 !! Req.locationId first
                 = Some (mkWinner (make_accessLog clock1 first) true)).
  { subst w1. rewrite (participate_first _ _ _ _ Hloc Hnone). cbn [snd].
    unfold stored_winners. rewrite stored_winners_after_logs, Hok.
    cbn. apply lookup_insert_eq. }
  split; [exact Hrec |].
  rewrite <- Hsame in Hrec, Hloc.
  rewrite (Hlater _ _ _ _ _ Hloc Hrec). reflexivity.
Qed.

Lemma winnerTime_is_reported_time_witness :
  fst (participate tick2 writes_ok phone2
         (snd (participate tick1 writes_ok phone1 fresh)))
  = Normal (participate_reply phone2 false (Req.accessTime phone1)).
Proof.
  exact (proj2 (proj2 winnerTime_is_reported_time tick1 tick2 writes_ok
                  writes_ok phone1 phone2 fresh eq_refl eq_refl eq_refl
                  eq_refl)).
Defined.

(** ** Identifiers outside the catalog *)

(** An identifier that is neither a catalog key nor a property of
    [Object.prototype] is refused by both guards, with no effect on the disk
    or the console. *)
Lemma unknown_location_refused (clock : Clock) (io : Writes) (req : Req.t)
    (w : World) :
  LOCATIONS !! Req.locationId req = None ->
  Req.locationId req ∉ Object_prototype_keys ->
  participate clock io req w = (Normal (JsonError 400 unknown_location), w)
  /\ get_location (Req.locationId req) w
     = (Normal (JsonError 404 unknown_location), w).
Proof.
  intros Hnone Hproto.
  assert (H : truthy (js_get LOCATIONS (Req.locationId req)) = false)
    by (apply falsy_iff; split; assumption).
  split; [apply participate_unknown; exact H |].
  unfold get_location. rewrite H. reflexivity.
Qed.

(** Every property name of [Object.prototype] passes the guard of line 89
    and is adjudicated as a late visit. *)
Lemma inherited_name_is_adjudicated (clock : Clock) (io : Writes) (req : Req.t)
    (w : World) :
  Req.locationId req ∈ Object_prototype_keys ->
  LOCATIONS !! Req.locationId req = None
  /\ failed (fst (participate clock io req w)) = false
  /\ verdict (fst (participate clock io req w)) = Some false
  /\ (logs_write io = None ->
      stored_logs (snd (participate clock io req w))
      = push_and_trim (stored_logs w) (mkEntry (make_accessLog clock req) false)).
Proof.
  intros Hin.
  assert (Hnone : LOCATIONS !! Req.locationId req = None).
  { destruct (LOCATIONS !! Req.locationId req) as [l|] eqn:E; [| reflexivity].
    exfalso. exact (catalog_key_not_inherited _ _ E Hin). }
  assert (Hget : forall (V : Type) (o : gmap string V),
             truthy (js_get o (Req.locationId req)) = true).
  { intros V o. unfold js_get. destruct (o !! Req.locationId req); [reflexivity |].
    rewrite (bool_decide_eq_true_2 _ Hin). reflexivity. }
  split; [exact Hnone |].
  rewrite (participate_later _ _ _ _ (Hget _ _) (Hget _ _)). cbn [fst snd].
  split; [reflexivity |]. split; [reflexivity |].
  intros ->. reflexivity.
Qed.

(** C5 at the identifier [constructor], which is not a catalog key: the
    guard of line 89 reads the inherited [Object.prototype.constructor], so
    the request is adjudicated as a late visit, answered 200 and appended to
    the access log; the guard of line 69 likewise lets the query through,
    which reports a winner. *)
Theorem constructor_passes_the_guard :
  LOCATIONS !! "constructor" = None
  /\ ("constructor" ∉ LOCATIONS_keys)
  /\ participate tick1 writes_ok probe fresh
     = (Normal (Json 200
          {| Participated.isWinner := false;
             Participated.locationName := JStr "Object";
             Participated.prize := JUndefined;
             Participated.emoji := JUndefined;
             Participated.accessTime := JStr "2024-01-01T00:00:00.000Z";
             Participated.winnerTime := JUndefined |}),
        mkWorld
          (mkDisk None
             (Some [ mkEntry (make_accessLog tick1 probe) false ]))
          [ AlreadyWon (JStr "Object") "198.51.100.1" ])
  /\ length (stored_logs (snd (participate tick1 writes_ok probe fresh)))
     = S (length (stored_logs fresh))
  /\ get_location "constructor" fresh
     = (Normal (Json 200
          {| LocationInfo.name := JUndefined;
             LocationInfo.prize := JUndefined;
             LocationInfo.emoji := JUndefined;
             LocationInfo.locationId := "constructor";
             LocationInfo.hasWinner := true;
             LocationInfo.winnerTime := JUndefined |}),
        fresh).
Proof.
  split; [reflexivity |].
  split; [apply (bool_decide_unpack _); vm_compute; exact I |].
  repeat split; vm_compute; reflexivity.
Qed.

(** ** The winner record of a location *)

Lemma participate_keeps_record (clock : Clock) (io : Writes) (req : Req.t)
    (w : World) (loc : string) (rec : WinnerRecord) :
  stored_winners w !! loc = Some rec ->
  stored_winners (snd (participate clock io req w)) !! loc = Some rec.
Proof.
  intros Hrec.
  destruct (truthy (js_get LOCATIONS (Req.locationId req))) eqn:Hloc;
    [| rewrite (participate_unknown _ _ _ _ Hloc); exact Hrec].
  destruct (truthy (js_get (stored_winners w) (Req.locationId req))) eqn:Hwin.
  - rewrite (participate_later _ _ _ _ Hloc Hwin). cbn [snd].
    unfold stored_winners in *. rewrite stored_winners_after_logs. exact Hrec.
  - rewrite (participate_first _ _ _ _ Hloc Hwin). cbn [snd].
    apply falsy_iff in Hwin as [Hnone _].
    assert (Hne : Req.locationId req <> loc) by congruence.
    unfold stored_winners at 1. rewrite stored_winners_after_logs.
    destruct (winners_write io) as [e|]; cbn.
    + exact Hrec.
    + rewrite lookup_insert_ne by exact Hne. exact Hrec.
Qed.

Lemma get_location_reads_only (locationId : string) (w : World) :
  snd (get_location locationId w) = w.
Proof.
  unfold get_location.
  destruct (truthy (js_get LOCATIONS locationId)); cbn [negb]; [| reflexivity].
  unfold bind. rewrite loadData_spec. reflexivity.
Qed.

Lemma admin_winners_reads_only (w : World) : snd (admin_winners w) = w.
Proof. unfold admin_winners, bind. rewrite loadData_spec. reflexivity. Qed.

Lemma admin_logs_reads_only (w : World) : snd (admin_logs w) = w.
Proof. unfold admin_logs, bind. rewrite loadData_spec. reflexivity. Qed.

Lemma admin_stats_reads_only (w : World) : snd (admin_stats w) = w.
Proof. unfold admin_stats, bind. rewrite !loadData_spec. reflexivity. Qed.

Lemma serve_keeps_record (c : Call) (w : World) (loc : string)
    (rec : WinnerRecord) :
  is_reset c = false ->
  stored_winners w !! loc = Some rec ->
  stored_winners (serve c w) !! loc = Some rec.
Proof.
  intros Hc Hrec. destruct c; cbn [serve]; try discriminate Hc.
  - exact Hrec.
  - rewrite get_location_reads_only. exact Hrec.
  - apply participate_keeps_record. exact Hrec.
  - rewrite admin_winners_reads_only. exact Hrec.
  - rewrite admin_logs_reads_only. exact Hrec.
  - rewrite admin_stats_reads_only. exact Hrec.
Qed.

Lemma admin_reset_world (io : Writes) (w : World) :
  snd (admin_reset io w)
  = announce EventReset
      (after_save (logs_write io) LOGS_FILE []
         (after_save (winners_write io) WINNERS_FILE ∅ w)).
Proof.
  unfold admin_reset, try_catch, admin_reset_try, bind.
  rewrite !saveData_spec. reflexivity.
Qed.

(** C2 on a handler that has read winners.json before the record is
    written.  [phone2]'s handler reads the document while Gangnam has no
    winner; [phone1] is then served from start to reply, wins, and its record
    is on disk; [phone2]'s handler goes on, finds no winner in what it has
    read, is answered [isWinner = true] and writes its own record over the one
    stored.  With [phone3] at Hongdae in place of [phone2], the late write
    removes Gangnam's record without any reset, and a visitor of Gangnam
    arriving after all this wins again.  No two writes are in flight
    together in these schedules. *)
Theorem late_write_replaces_the_record :
  let start := mkServer fresh [Arrived phone1; Arrived phone2] in
  let written := run_schedule (take 7 (straggler tick1 tick2)) start in
  let after := run_schedule (straggler tick1 tick2) start in
  let erased :=
    run_schedule (straggler tick1 tick2)
      (mkServer fresh [Arrived phone1; Arrived phone3]) in
  stored_winners (world written) !! "gangnam"
  = Some (mkWinner (make_accessLog tick1 phone1) true)
  /\ map task_verdict (tasks written) = [Some true; None]
  /\ map task_verdict (tasks after) = [Some true; Some true]
  /\ stored_winners (world after) !! "gangnam"
     = Some (mkWinner (make_accessLog tick2 phone2) true)
  /\ mkWinner (make_accessLog tick2 phone2) true
     <> mkWinner (make_accessLog tick1 phone1) true
  /\ map task_verdict (tasks erased) = [Some true; Some true]
  /\ stored_winners (world erased) !! "gangnam" = None
  /\ verdict (fst (participate tick3 writes_ok phone2 (world erased)))
     = Some true.
Proof.
  repeat split; try (vm_compute; reflexivity). discriminate.
Qed.

(** ** The access log *)

Lemma push_and_trim_most_recent (logs : list LogEntry) (accessLog : LogEntry) :
  push_and_trim logs accessLog = most_recent 1000 (logs ++ [accessLog]).
Proof.
  unfold push_and_trim, most_recent.
  destruct (1000 <? length (logs ++ [accessLog]))%nat eqn:E; [reflexivity |].
  apply Nat.ltb_ge in E.
  replace (length (logs ++ [accessLog]) - 1000)%nat with 0%nat by lia.
  reflexivity.
Qed.

Lemma length_most_recent {A : Type} (n : nat) (l : list A) :
  length (most_recent n l) = Nat.min n (length l).
Proof. unfold most_recent. rewrite length_drop. lia. Qed.

Lemma most_recent_suffix {A : Type} (n : nat) (l : list A) :
  l = (take (length l - n) l ++ most_recent n l)%list.
Proof. unfold most_recent. symmetry. apply take_drop. Qed.

Lemma most_recent_app {A : Type} (n : nat) (l m : list A) :
  most_recent n (most_recent n l ++ m) = most_recent n (l ++ m).
Proof.
  unfold most_recent at 1 3.
  rewrite !length_app, length_most_recent.
  unfold most_recent.
  rewrite !skipn_app, drop_drop, length_drop.
  destruct (Nat.le_gt_cases (length l) n) as [Hle|Hgt].
  - rewrite Nat.min_r by lia.
    replace (length l - n)%nat with 0%nat by lia.
    cbn [Nat.add]. rewrite Nat.sub_0_r. reflexivity.
  - rewrite Nat.min_l by lia.
    f_equal; f_equal; lia.
Qed.

Lemma most_recent_map {A B : Type} (f : A -> B) (n : nat) (l : list A) :
  map f (most_recent n l) = most_recent n (map f l).
Proof. unfold most_recent. rewrite length_map. symmetry. apply skipn_map. Qed.

Lemma most_recent_short {A : Type} (n : nat) (l : list A) :
  (length l <= n)%nat -> most_recent n l = l.
Proof.
  intros H. unfold most_recent.
  replace (length l - n)%nat with 0%nat by lia. reflexivity.
Qed.

(** The log written by an accepted visit whose log write succeeds. *)
Lemma participate_logs (clock : Clock) (io : Writes) (req : Req.t) (w : World) :
  truthy (js_get LOCATIONS (Req.locationId req)) = true ->
  logs_write io = None ->
  exists isWinner,
    stored_logs (snd (participate clock io req w))
    = push_and_trim (stored_logs w) (mkEntry (make_accessLog clock req) isWinner).
Proof.
  intros Hloc Hok.
  destruct (truthy (js_get (stored_winners w) (Req.locationId req))) eqn:Hwin.
  - exists false. rewrite (participate_later _ _ _ _ Hloc Hwin), Hok. reflexivity.
  - exists true. rewrite (participate_first _ _ _ _ Hloc Hwin), Hok. reflexivity.
Qed.

Lemma visits_logged (visits : list Visit) (w : World) :
  (length (stored_logs w) <= 1000)%nat ->
  forallb logged visits = true ->
  map l_log (stored_logs (serve_all (map visit_call visits) w))
  = most_recent 1000 (map l_log (stored_logs w) ++ map visit_log visits).
Proof.
  revert w. induction visits as [|v visits IH]; intros w Hlen Hall.
  - cbn [map serve_all foldl]. rewrite app_nil_r.
    symmetry. apply most_recent_short. rewrite length_map. exact Hlen.
  - cbn [forallb] in Hall. apply andb_prop in Hall as [Hv Hall].
    unfold logged in Hv. apply andb_prop in Hv as [Hloc Hok].
    apply bool_decide_eq_true in Hok.
    destruct v as [[clock io] req]. cbn [fst snd] in Hloc, Hok.
    destruct (participate_logs clock io req w Hloc Hok) as [b Hlogs].
    cbn [map serve_all foldl visit_call serve fst snd].
    change (foldl (fun w0 c => serve c w0) ?x ?l) with (serve_all l x).
    rewrite IH; [| | exact Hall].
    + rewrite Hlogs, push_and_trim_most_recent, most_recent_map, map_app.
      rewrite most_recent_app. cbn [map]. rewrite <- app_assoc. reflexivity.
    + rewrite Hlogs, push_and_trim_most_recent, length_most_recent. lia.
Qed.

(** C6: the access log holds at most 1000 entries.  Appending an entry and
    trimming keeps the most recent 1000 of the old entries followed by the new
    one, the entries dropped being the oldest; and after 1005 accepted visits
    served in a row, each with a successful write of logs.json, on a log
    within the bound, the log holds exactly 1000 entries: those of the visits,
    in arrival order, without the first five. *)
Theorem log_keeps_the_most_recent_1000 :
  (forall (logs : list LogEntry) (accessLog : LogEntry),
      push_and_trim logs accessLog
      = drop (length (logs ++ [accessLog]) - 1000) (logs ++ [accessLog])
      /\ length (push_and_trim logs accessLog)
         = Nat.min 1000 (length logs + 1)
      /\ (take (length (logs ++ [accessLog]) - 1000) (logs ++ [accessLog])
          ++ push_and_trim logs accessLog)%list
         = (logs ++ [accessLog])%list)
  /\ (forall (visits : list Visit) (w : World),
        (length (stored_logs w) <= 1000)%nat ->
        length visits = 1005%nat ->
        forallb logged visits = true ->
        let w' := serve_all (map visit_call visits) w in
        length (stored_logs w') = 1000%nat
        /\ map l_log (stored_logs w') = drop 5 (map visit_log visits)).
Proof.
  split.
  - intros logs accessLog. rewrite push_and_trim_most_recent.
    split; [reflexivity |].
    split; [rewrite length_most_recent, length_app; cbn [length]; lia |].
    symmetry. apply most_recent_suffix.
  - intros visits w Hlen H1005 Hall w'.
    assert (Hlogs : map l_log (stored_logs w') = drop 5 (map visit_log visits)).
    { subst w'. rewrite (visits_logged _ _ Hlen Hall).
      unfold most_recent. rewrite length_app, !length_map, H1005.
      replace (length (stored_logs w) + 1005 - 1000)%nat
        with (length (map l_log (stored_logs w)) + 5)%nat
        by (rewrite length_map; lia).
      apply drop_app_add. }
    split; [| exact Hlogs].
    rewrite <- (length_map l_log), Hlogs, length_drop, length_map, H1005.
    reflexivity.
Qed.

Lemma log_keeps_the_most_recent_1000_witness :
  length (stored_logs (serve_all (map visit_call rush) fresh)) = 1000%nat
  /\ map l_log (stored_logs (serve_all (map visit_call rush) fresh))
     = drop 5 (map visit_log rush).
Proof.
  apply (proj2 log_keeps_the_most_recent_1000 rush fresh).
  - cbn. lia.
  - vm_compute. reflexivity.
  - vm_compute. reflexivity.
Defined.

(** ** Reset *)

(** C7: after a reset both of whose writes succeed, the winners document
    and the access log are empty: the query of every catalog location answers
    [hasWinner = false] and [winnerTime = null], and the admin views of the
    winners and of the logs are empty. *)
Theorem reset_empties_the_event (io : Writes) (w : World) :
  winners_write io = None ->
  logs_write io = None ->
  let w' := snd (admin_reset io w) in
  disk w' = mkDisk (Some ∅) (Some [])
  /\ (forall (locationId : string) (l : Location),
        LOCATIONS !! locationId = Some l ->
        get_location locationId w'
        = (Normal (Json 200
             {| LocationInfo.name := JStr (name l);
                LocationInfo.prize := JStr (prize l);
                LocationInfo.emoji := JStr (emoji l);
                LocationInfo.locationId := locationId;
                LocationInfo.hasWinner := false;
                LocationInfo.winnerTime := JNull |}),
           w'))
  /\ admin_winners w' = (Normal (Json 200 ∅), w')
  /\ admin_logs w' = (Normal (Json 200 []), w').
Proof.
  intros Hw Hl w'.
  assert (Hdisk : disk w' = mkDisk (Some ∅) (Some [])).
  { subst w'. rewrite admin_reset_world, Hw, Hl. reflexivity. }
  split; [exact Hdisk |].
  split; [| split].
  - intros locationId l Hloc.
    unfold get_location. rewrite (js_get_own _ _ _ Hloc). cbn [truthy negb].
    unfold bind. rewrite loadData_spec, Hdisk. cbn [WINNERS_FILE contents
      winners_json default].
    unfold id. rewrite (hasWinner_catalog _ _ _ Hloc), lookup_empty.
    reflexivity.
  - unfold admin_winners, bind. rewrite loadData_spec, Hdisk.
    cbn [WINNERS_FILE contents winners_json default]. unfold ret, id.
    rewrite map_imap_empty. reflexivity.
  - unfold admin_logs, bind. rewrite loadData_spec, Hdisk. reflexivity.
Qed.

Lemma reset_empties_the_event_witness :
  get_location "gangnam"
    (snd (admin_reset writes_ok (snd (participate tick1 writes_ok phone1 fresh))))
  = (Normal (Json 200
       {| LocationInfo.name := JStr "강남역";
          LocationInfo.prize := JStr "스타벅스 아메리카노";
          LocationInfo.emoji := JStr "☕";
          LocationInfo.locationId := "gangnam";
          LocationInfo.hasWinner := false;
          LocationInfo.winnerTime := JNull |}),
     snd (admin_reset writes_ok (snd (participate tick1 writes_ok phone1 fresh)))).
Proof.
  exact (proj1 (proj2 (reset_empties_the_event writes_ok
                         (snd (participate tick1 writes_ok phone1 fresh))
                         eq_refl eq_refl))
           "gangnam" (mkLocation "강남역" "스타벅스 아메리카노" "☕") eq_refl).
Defined.

(** ** Statistics *)

(** The loop of lines 208-214 fills one entry per catalog key. *)
Lemma tally_lookup {V : Type} (f : string -> Location -> V) (keys : list string)
    (acc : gmap string V) (k : string) :
  foldl (fun acc locationId =>
           match LOCATIONS !! locationId with
           | Some l => <[locationId := f locationId l]> acc
           | None => acc
           end) acc keys !! k
  = match LOCATIONS !! k with
    | Some l => if bool_decide (k ∈ keys) then Some (f k l) else acc !! k
    | None => acc !! k
    end.
Proof.
  revert acc. induction keys as [|k0 keys IH]; intros acc.
  - cbn [foldl]. destruct (LOCATIONS !! k); [| reflexivity].
    rewrite bool_decide_eq_false_2 by apply not_elem_of_nil. reflexivity.
  - cbn [foldl]. rewrite IH.
    destruct (decide (k0 = k)) as [->|Hne].
    + destruct (LOCATIONS !! k) as [l|] eqn:Hk; [| reflexivity].
      rewrite (bool_decide_eq_true_2 (k ∈ k :: keys))
        by (apply elem_of_cons; left; reflexivity).
      rewrite lookup_insert_eq. destruct (bool_decide (k ∈ keys)); reflexivity.
    + assert (Hacc : (match LOCATIONS !! k0 with
                      | Some l => <[k0 := f k0 l]> acc
                      | None => acc
                      end) !! k = acc !! k).
      { destruct (LOCATIONS !! k0); [apply lookup_insert_ne; exact Hne | reflexivity]. }
      rewrite Hacc.
      destruct (LOCATIONS !! k) as [l|]; [| reflexivity].
      destruct (decide (k ∈ keys)) as [Hin|Hnin].
      * rewrite !bool_decide_eq_true_2; [reflexivity | | exact Hin].
        apply elem_of_cons. right. exact Hin.
      * rewrite !bool_decide_eq_false_2; [reflexivity | | exact Hnin].
        intros Hin. apply elem_of_cons in Hin as [->|Hin]; contradiction.
Qed.

Lemma catalog_key_listed (k : string) (l : Location) :
  LOCATIONS !! k = Some l -> k ∈ LOCATIONS_keys.
Proof.
  intros H. apply catalog_keys in H. unfold LOCATIONS_keys.
  apply list_elem_of_fmap. exists (k, l). split; [reflexivity | exact H].
Qed.

Lemma admin_stats_spec (w : World) :
  admin_stats w
  = (Normal (Json 200 (make_stats (stored_winners w) (stored_logs w))), w).
Proof. unfold admin_stats, bind. rewrite !loadData_spec. reflexivity. Qed.

Lemma catalog_key_cases (k : string) (l : Location) :
  LOCATIONS !! k = Some l ->
  k = "gangnam" \/ k = "hongdae" \/ k = "myeongdong" \/ k = "itaewon"
  \/ k = "jamsil".
Proof.
  intros H. apply catalog_key_listed in H.
  unfold LOCATIONS_keys, LOCATIONS_entries in H. cbn in H.
  rewrite !elem_of_cons, elem_of_nil in H. tauto.
Qed.

(** C8: the statistics view.  [totalLocations] is the size of the catalog,
    [winnersCount] the number of entries of the winners document,
    [totalParticipants] the length of the access log, and each catalog
    location is listed with its name, the number of log entries carrying its
    identifier and whether the winners document has an entry for it; nothing
    else is listed and nothing is written.  After the visits (A, t1), (B, t1),
    (A, t2) to two different catalog locations, served in this order on a new
    server with working writes, the view reports two winners, three
    participants, two visits for A and one for B. *)
Theorem stats_view :
  (forall w : World,
      let stats := make_stats (stored_winners w) (stored_logs w) in
      admin_stats w = (Normal (Json 200 stats), w)
      /\ Stats.totalLocations stats = size LOCATIONS
      /\ Stats.winnersCount stats = size (stored_winners w)
      /\ Stats.totalParticipants stats = length (stored_logs w)
      /\ (forall (k : string) (l : Location),
            LOCATIONS !! k = Some l ->
            Stats.participantsByLocation stats !! k
            = Some {| Stats.name := name l;
                      Stats.count :=
                        length (filter
                                  (fun log => Log.locationId (l_log log) = k)
                                  (stored_logs w));
                      Stats.hasWinner :=
                        bool_decide (is_Some (stored_winners w !! k)) |})
      /\ (forall k : string,
            LOCATIONS !! k = None ->
            Stats.participantsByLocation stats !! k = None))
  /\ (forall (A B : string) (la lb : Location) (c1 c2 c3 : Clock)
             (t1 t2 ua1 ua2 ua3 : jsval) (ip1 ip2 ip3 : string),
        LOCATIONS !! A = Some la ->
        LOCATIONS !! B = Some lb ->
        A <> B ->
        let w3 :=
          serve_all [ POST_participate c1 writes_ok (Req.mk A t1 ua1 ip1);
                      POST_participate c2 writes_ok (Req.mk B t1 ua2 ip2);
                      POST_participate c3 writes_ok (Req.mk A t2 ua3 ip3) ]
                    fresh in
        let stats := make_stats (stored_winners w3) (stored_logs w3) in
        admin_stats w3 = (Normal (Json 200 stats), w3)
        /\ Stats.winnersCount stats = 2%nat
        /\ Stats.totalParticipants stats = 3%nat
        /\ Stats.count <$> Stats.participantsByLocation stats !! A = Some 2%nat
        /\ Stats.count <$> Stats.participantsByLocation stats !! B = Some 1%nat).
Proof.
  split.
  - intros w stats. split; [apply admin_stats_spec |]. subst stats.
    cbn [make_stats Stats.totalLocations Stats.winnersCount
         Stats.totalParticipants Stats.participantsByLocation].
    split; [vm_compute; reflexivity |].
    split; [reflexivity |]. split; [reflexivity |].
    split.
    + intros k l Hk. rewrite tally_lookup, Hk.
      rewrite (bool_decide_eq_true_2 _ (catalog_key_listed _ _ Hk)).
      rewrite (hasWinner_catalog _ _ _ Hk). reflexivity.
    + intros k Hk. rewrite tally_lookup, Hk. apply lookup_empty.
  - intros A B la lb c1 c2 c3 t1 t2 ua1 ua2 ua3 ip1 ip2 ip3 HA HB Hne w3 stats.
    split; [apply admin_stats_spec |]. subst stats w3.
    apply catalog_key_cases in HA, HB.
    destruct HA as [->|[->|[->|[->| ->]]]];
      destruct HB as [->|[->|[->|[->| ->]]]];
      try (exfalso; apply Hne; reflexivity);
      (split; [vm_compute; reflexivity |]);
      (split; [vm_compute; reflexivity |]);
      (split; vm_compute; reflexivity).
Qed.

Lemma stats_view_witness :
  let w3 :=
    serve_all [ POST_participate tick1 writes_ok phone1;
                POST_participate tick2 writes_ok
                  (Req.mk "hongdae" (Req.accessTime phone1)
                          (JStr "Mozilla/5.0 (C)") "203.0.113.9");
                POST_participate tick3 writes_ok phone2 ]
              fresh in
  let stats := make_stats (stored_winners w3) (stored_logs w3) in
  admin_stats w3 = (Normal (Json 200 stats), w3)
  /\ Stats.winnersCount stats = 2%nat
  /\ Stats.totalParticipants stats = 3%nat
  /\ Stats.count <$> Stats.participantsByLocation stats !! "gangnam"
     = Some 2%nat
  /\ Stats.count <$> Stats.participantsByLocation stats !! "hongdae"
     = Some 1%nat.
Proof.
  refine (proj2 stats_view "gangnam" "hongdae" _ _ tick1 tick2 tick3
            _ _ _ _ _ _ _ _ eq_refl eq_refl _).
  discriminate.
Defined.

(** ** Handlers in flight *)

(** A handler that is resumed five times with nothing in between is the
    handler of [participate]. *)
Lemma run_alone_participate (clock : Clock) (io : Writes) (req : Req.t)
    (w : World) :
  run_alone 5 clock io (Arrived req) w
  = match participate clock io req w with
    | (Normal reply, w') => (Replied reply, w')
    | (Throw e, w') => (Crashed e, w')
    end.
Proof.
  destruct (truthy (js_get LOCATIONS (Req.locationId req))) eqn:Hloc.
  - destruct (truthy (js_get (stored_winners w) (Req.locationId req))) eqn:Hwin.
    + rewrite (participate_later _ _ _ _ Hloc Hwin).
      unfold run_alone, resume. rewrite Hloc. cbn [negb]. unfold ret at 1.
      load_documents w. rewrite Hwin. cbn [negb]. run_writes.
    + rewrite (participate_first _ _ _ _ Hloc Hwin).
      unfold run_alone, resume. rewrite Hloc. cbn [negb]. unfold ret at 1.
      load_documents w. rewrite Hwin. cbn [negb]. run_writes.
  - rewrite (participate_unknown _ _ _ _ Hloc).
    unfold run_alone, resume. rewrite Hloc. reflexivity.
Qed.

(** Visits to one location served one after the other, on a disk whose
    write of winners.json succeeds for the first of them: the first wins and
    every other one loses. *)
Lemma later_visits_lose (loc : string) (rec : WinnerRecord)
    (visits : list Visit) (w : World) :
  truthy (js_get LOCATIONS loc) = true ->
  stored_winners w !! loc = Some rec ->
  Forall (fun v : Visit => Req.locationId v.2 = loc) visits ->
  map verdict (fst (serve_visits visits w))
  = replicate (length visits) (Some false).
Proof.
  intros Hloc. revert w.
  induction visits as [|[[clock io] req] visits IH]; intros w Hrec Hall;
    [reflexivity |].
  apply Forall_cons in Hall as [Hv Hrest]. cbn [fst snd] in Hv.
  cbn [serve_visits fst snd].
  pose proof (participate_keeps_record clock io req w _ _ Hrec) as Hkeep.
  assert (Hreply : fst (participate clock io req w)
                   = Normal (participate_reply req false
                               (Log.accessTime (w_log rec)))).
  { rewrite <- Hv in Hloc, Hrec.
    rewrite (participate_later _ _ _ _ Hloc (truthy_own _ _ _ Hrec)).
    cbn [fst]. rewrite (js_get_own _ _ _ Hrec). reflexivity. }
  destruct (participate clock io req w) as [reply w'] eqn:E.
  cbn [fst snd] in Hkeep, Hreply. subst reply.
  specialize (IH w' Hkeep Hrest).
  destruct (serve_visits visits w') as [replies w''].
  cbn [fst map length replicate] in *. rewrite IH. reflexivity.
Qed.

Lemma served_in_a_row_one_winner (loc : string) (v : Visit)
    (visits : list Visit) (w : World) :
  truthy (js_get LOCATIONS loc) = true ->
  truthy (js_get (stored_winners w) loc) = false ->
  Forall (fun v : Visit => Req.locationId v.2 = loc) (v :: visits) ->
  winners_write v.1.2 = None ->
  map verdict (fst (serve_visits (v :: visits) w))
  = Some true :: replicate (length visits) (Some false).
Proof.
  intros Hloc Hnone Hall Hok. destruct v as [[clock io] req].
  apply Forall_cons in Hall as [Hv Hrest]. cbn [fst snd] in Hv, Hok.
  cbn [serve_visits fst snd].
  rewrite <- Hv in Hloc, Hnone.
  rewrite (participate_first _ _ _ _ Hloc Hnone).
  set (w' := after_save _ _ _ _).
  assert (Hrec : stored_winners w' !! Req.locationId req
                 = Some (mkWinner (make_accessLog clock req) true)).
  { subst w'. unfold stored_winners. rewrite stored_winners_after_logs, Hok.
    cbn. apply lookup_insert_eq. }
  rewrite Hv in Hloc, Hrec.
  pose proof (later_visits_lose _ _ visits w' Hloc Hrec Hrest) as Hlater.
  destruct (serve_visits visits w') as [replies w''].
  cbn [fst map] in *. rewrite Hlater. reflexivity.
Qed.

(** C1 on two requests for Gangnam in flight together.  Resumed in
    alternation, both handlers read winners.json before either has written
    it, so both are answered [isWinner = true] and the record of the first is
    overwritten by the second; resumed one after the other, the second is
    answered [isWinner = false]. *)
Theorem concurrent_visits_both_win :
  Req.locationId phone1 = Req.locationId phone2
  /\ tasks (run_schedule (alternate tick1 tick2)
              (mkServer fresh [Arrived phone1; Arrived phone2]))
     = [ Replied (participate_reply phone1 true JNull);
         Replied (participate_reply phone2 true JNull) ]
  /\ map task_verdict
       (tasks (run_schedule (alternate tick1 tick2)
                 (mkServer fresh [Arrived phone1; Arrived phone2])))
     = [Some true; Some true]
  /\ stored_winners
       (world (run_schedule (alternate tick1 tick2)
                 (mkServer fresh [Arrived phone1; Arrived phone2])))
     !! "gangnam"
     = Some (mkWinner (make_accessLog tick2 phone2) true)
  /\ map task_verdict
       (tasks (run_schedule (in_turn tick1 tick2)
                 (mkServer fresh [Arrived phone1; Arrived phone2])))
     = [Some true; Some false].
Proof. repeat split; vm_compute; reflexivity. Qed.

(** The same race between two locations: the handler for Hongdae writes the
    winners document it read before Gangnam had a winner, which erases
    Gangnam's record, and the next visitor of Gangnam wins again. *)
Example stale_write_erases_a_winner :
  let s := run_schedule (alternate tick1 tick2)
             (mkServer fresh [Arrived phone1; Arrived phone3]) in
  map task_verdict (tasks s) = [Some true; Some true]
  /\ stored_winners (world s) !! "gangnam" = None
  /\ verdict (fst (participate tick3 writes_ok phone2 (world s))) = Some true.
Proof. repeat split; vm_compute; reflexivity. Qed.

(** ** Identifiers of access logs *)

Lemma accessLog_id_is_clock_reading (clock : Clock) (req : Req.t) :
  Log.id (make_accessLog clock req) = Date_now clock.
Proof. reflexivity. Qed.

(** C9 on two visits within one millisecond.  The identifier is the reading
    of [Date.now()]: two visits served one after the other while the clock
    shows the same millisecond are logged under one identifier, and so are the
    [accessLog] objects of two handlers in flight together. *)
Theorem same_millisecond_same_id :
  log_ids (stored_logs
             (serve_all [ POST_participate tick1 writes_ok phone1;
                          POST_participate tick1 writes_ok phone3 ] fresh))
  = [1704067205000; 1704067205000]
  /\ map (fun t => Log.id <$> task_accessLog t)
       (tasks (run_schedule
                 (take 6 (alternate tick1 tick1))
                 (mkServer fresh [Arrived phone1; Arrived phone3])))
     = [Some 1704067205000; Some 1704067205000]
  /\ phone1 <> phone3.
Proof. repeat split; try (vm_compute; reflexivity). discriminate. Qed.

(** * Further properties of the routes and helpers *)

(** ** What the read-only routes return *)

Lemma get_location_spec (locationId : string) (w : World) :
  get_location locationId w
  = (Normal
       (if truthy (js_get LOCATIONS locationId) then
          Json 200
            {| LocationInfo.name := spread_field (js_get LOCATIONS locationId) name;
               LocationInfo.prize := spread_field (js_get LOCATIONS locationId) prize;
               LocationInfo.emoji := spread_field (js_get LOCATIONS locationId) emoji;
               LocationInfo.locationId := locationId;
               LocationInfo.hasWinner :=
                 truthy (js_get (stored_winners w) locationId);
               LocationInfo.winnerTime :=
                 if truthy (js_get (stored_winners w) locationId)
                 then winner_accessTime (js_get (stored_winners w) locationId)
                 else JNull |}
        else JsonError 404 unknown_location),
     w).
Proof.
  unfold get_location.
  destruct (truthy (js_get LOCATIONS locationId)); cbn [negb]; [| reflexivity].
  load_documents w. reflexivity.
Qed.

Lemma admin_winners_spec (w : World) :
  admin_winners w
  = (Normal (Json 200
       (map_imap (fun locationId winner =>
                    if bool_decide (locationId = "__proto__") then None
                    else Some (winner, js_get LOCATIONS locationId))
                 (stored_winners w))),
     w).
Proof. unfold admin_winners. load_documents w. reflexivity. Qed.

Lemma admin_logs_spec (w : World) :
  admin_logs w
  = (Normal (Json 200
       (map (fun log => (log, js_get LOCATIONS (Log.locationId (l_log log))))
            (rev (most_recent 100 (stored_logs w))))),
     w).
Proof. unfold admin_logs. load_documents w. reflexivity. Qed.

(** ** Documents on disk *)

(** X1: what [saveData] writes, [loadData] reads back.  After a successful
    save of either document a load of that file returns the document saved,
    whatever default it is given, and a load of the other file returns what it
    returned before the save. *)
Theorem save_then_load (w : World) (winners winners0 : gmap string WinnerRecord)
    (logs logs0 : list LogEntry) :
  (saveData None WINNERS_FILE winners ;; loadData WINNERS_FILE winners0)%js w
  = (Normal winners, snd (saveData None WINNERS_FILE winners w))
  /\ (saveData None LOGS_FILE logs ;; loadData LOGS_FILE logs0)%js w
     = (Normal logs, snd (saveData None LOGS_FILE logs w))
  /\ fst ((saveData None WINNERS_FILE winners ;; loadData LOGS_FILE logs0)%js w)
     = fst (loadData LOGS_FILE logs0 w)
  /\ fst ((saveData None LOGS_FILE logs ;; loadData WINNERS_FILE winners0)%js w)
     = fst (loadData WINNERS_FILE winners0 w).
Proof.
  unfold bind. rewrite !saveData_spec, !loadData_spec. cbn.
  repeat split; reflexivity.
Qed.

(** X2: a server without data files.  Every load falls back on its default
    without throwing, so each catalog location is reported without a winner,
    the winners and logs views are empty, the statistics count nothing, and
    none of these reads creates a file. *)
Theorem first_run_views_are_empty (console0 : list ConsoleLine) :
  let w := mkWorld (mkDisk None None) console0 in
  (forall (locationId : string) (l : Location),
      LOCATIONS !! locationId = Some l ->
      get_location locationId w
      = (Normal (Json 200
           {| LocationInfo.name := JStr (name l);
              LocationInfo.prize := JStr (prize l);
              LocationInfo.emoji := JStr (emoji l);
              LocationInfo.locationId := locationId;
              LocationInfo.hasWinner := false;
              LocationInfo.winnerTime := JNull |}),
         w))
  /\ admin_winners w = (Normal (Json 200 ∅), w)
  /\ admin_logs w = (Normal (Json 200 []), w)
  /\ (exists stats,
        admin_stats w = (Normal (Json 200 stats), w)
        /\ Stats.winnersCount stats = 0%nat
        /\ Stats.totalParticipants stats = 0%nat
        /\ (forall k per,
              Stats.participantsByLocation stats !! k = Some per ->
              Stats.count per = 0%nat /\ Stats.hasWinner per = false)).
Proof.
  intros w. split; [| split; [| split]].
  - intros locationId l Hloc. rewrite get_location_spec.
    rewrite (js_get_own _ _ _ Hloc). cbn [truthy spread_field].
    rewrite (hasWinner_catalog _ _ _ Hloc).
    change (stored_winners w) with (∅ : gmap string WinnerRecord).
    rewrite lookup_empty. reflexivity.
  - rewrite admin_winners_spec.
    change (stored_winners w) with (∅ : gmap string WinnerRecord).
    rewrite map_imap_empty. reflexivity.
  - rewrite admin_logs_spec. reflexivity.
  - eexists. split; [apply admin_stats_spec |].
    change (stored_winners w) with (∅ : gmap string WinnerRecord).
    change (stored_logs w) with (@nil LogEntry).
    split; [reflexivity |]. split; [reflexivity |].
    intros k per Hper. cbn [make_stats Stats.participantsByLocation] in Hper.
    rewrite tally_lookup in Hper.
    destruct (LOCATIONS !! k) as [l|] eqn:Hk.
    + rewrite (bool_decide_eq_true_2 _ (catalog_key_listed _ _ Hk)) in Hper.
      injection Hper as <-. cbn [Stats.count Stats.hasWinner].
      split; [reflexivity |].
      rewrite (hasWinner_catalog _ _ _ Hk), lookup_empty. reflexivity.
    + rewrite lookup_empty in Hper. discriminate.
Qed.

Lemma first_run_views_are_empty_witness :
  get_location "jamsil" fresh
  = (Normal (Json 200
       {| LocationInfo.name := JStr "잠실역";
          LocationInfo.prize := JStr "메가커피 음료수";
          LocationInfo.emoji := JStr "🥤";
          LocationInfo.locationId := "jamsil";
          LocationInfo.hasWinner := false;
          LocationInfo.winnerTime := JNull |}),
     fresh).
Proof.
  exact (proj1 (first_run_views_are_empty []) "jamsil"
           (mkLocation "잠실역" "메가커피 음료수" "🥤") eq_refl).
Defined.

(** ** The logs view *)

Lemma rev_is_reverse {A : Type} (l : list A) : rev l = reverse l.
Proof. unfold reverse. apply rev_alt. Qed.

Lemma most_recent_lookup {A : Type} (n : nat) (l : list A) (i : nat) :
  (i < Nat.min n (length l))%nat ->
  rev (most_recent n l) !! i = l !! (length l - S i)%nat.
Proof.
  intros Hi. rewrite rev_is_reverse, reverse_lookup
    by (rewrite length_most_recent; exact Hi).
  rewrite length_most_recent. unfold most_recent. rewrite lookup_drop.
  f_equal. lia.
Qed.

(** X3: [GET /api/admin/logs] returns the most recent entries, newest
    first and at most 100 of them: the view has [min 100 n] items for a log
    of [n] entries, its item [i] is the log entry at position [n - 1 - i] with
    the catalog's answer for its location attached, and nothing is written. *)
Theorem admin_logs_newest_first (w : World) :
  exists view : list (LogEntry * PropRead Location),
    admin_logs w = (Normal (Json 200 view), w)
    /\ length view = Nat.min 100 (length (stored_logs w))
    /\ (forall i : nat,
          (i < Nat.min 100 (length (stored_logs w)))%nat ->
          view !! i
          = with_locationInfo
              <$> stored_logs w !! (length (stored_logs w) - S i)%nat).
Proof.
  eexists. split; [apply admin_logs_spec |].
  split.
  - rewrite length_map, length_rev. apply length_most_recent.
  - intros i Hi.
    change (map ?f ?l) with (f <$> l).
    rewrite list_lookup_fmap, (most_recent_lookup _ _ _ Hi). reflexivity.
Qed.

Lemma admin_logs_newest_first_witness :
  exists view : list (LogEntry * PropRead Location),
    admin_logs (serve_all (map visit_call rush) fresh)
    = (Normal (Json 200 view), serve_all (map visit_call rush) fresh)
    /\ length view = 100%nat
    /\ (fst <$> view !! 0%nat)
       = stored_logs (serve_all (map visit_call rush) fresh) !! 999%nat.
Proof.
  destruct (admin_logs_newest_first (serve_all (map visit_call rush) fresh))
    as (view & Hview & Hlen & Hitems).
  exists view. split; [exact Hview |].
  assert (Hn : length (stored_logs (serve_all (map visit_call rush) fresh))
               = 1000%nat) by (vm_compute; reflexivity).
  rewrite Hn in Hlen, Hitems.
  split; [exact Hlen |].
  rewrite (Hitems 0%nat) by (cbn; lia).
  cbn [Nat.sub]. destruct (stored_logs _ !! 999%nat); reflexivity.
Defined.

(** X4: the log agrees with the reply.  After an accepted visit whose write
    of logs.json succeeds, the first item of the logs view is the entry of
    that visit: the request's fields, the two clock readings, and the
    [isWinner] flag the caller was answered with. *)
Theorem latest_visit_heads_the_logs (clock : Clock) (io : Writes) (req : Req.t)
    (w : World) :
  truthy (js_get LOCATIONS (Req.locationId req)) = true ->
  logs_write io = None ->
  exists (b : bool) (older : list (LogEntry * PropRead Location)),
    verdict (fst (participate clock io req w)) = Some b
    /\ fst (admin_logs (snd (participate clock io req w)))
       = Normal (Json 200
           (({| l_log :=
                  {| Log.id := Date_now clock;
                     Log.locationId := Req.locationId req;
                     Log.accessTime := Req.accessTime req;
                     Log.ip := Req.clientIP req;
                     Log.userAgent := Req.userAgent req;
                     Log.timestamp := new_Date_toISOString clock |};
                isWinner := b |},
             js_get LOCATIONS (Req.locationId req)) :: older)).
Proof.
  intros Hloc Hok.
  assert (Hhead : forall (b : bool) (logs : list LogEntry),
             exists older,
               map with_locationInfo
                 (rev (most_recent 100
                         (push_and_trim logs (mkEntry (make_accessLog clock req) b))))
               = with_locationInfo (mkEntry (make_accessLog clock req) b) :: older).
  { intros b logs. rewrite push_and_trim_most_recent.
    set (e := mkEntry (make_accessLog clock req) b).
    assert (Hlast : exists init, most_recent 100 (most_recent 1000 (logs ++ [e]))
                                 = (init ++ [e])%list).
    { unfold most_recent at 1. rewrite length_most_recent.
      unfold most_recent. rewrite drop_drop, length_app. cbn [length].
      exists (drop (length logs + 1 - 1000
                    + (Nat.min 1000 (length logs + 1) - 100)) logs).
      rewrite skipn_app.
      replace (length logs + 1 - 1000
               + (Nat.min 1000 (length logs + 1) - 100) - length logs)%nat
        with 0%nat by lia.
      reflexivity. }
    destruct Hlast as [init ->].
    rewrite rev_app_distr. cbn [rev app map]. eauto. }
  destruct (truthy (js_get (stored_winners w) (Req.locationId req))) eqn:Hwin.
  - rewrite (participate_later _ _ _ _ Hloc Hwin). cbn [fst snd].
    rewrite admin_logs_spec, Hok. cbn [fst].
    destruct (Hhead false (stored_logs w)) as [older Holder].
    exists false, older. split; [reflexivity |].
    change (stored_logs (after_save None LOGS_FILE ?d ?w0)) with d.
    unfold with_locationInfo in Holder. rewrite Holder. reflexivity.
  - rewrite (participate_first _ _ _ _ Hloc Hwin). cbn [fst snd].
    rewrite admin_logs_spec, Hok. cbn [fst].
    destruct (Hhead true (stored_logs w)) as [older Holder].
    exists true, older. split; [reflexivity |].
    change (stored_logs (after_save None LOGS_FILE ?d ?w0)) with d.
    unfold with_locationInfo in Holder. rewrite Holder. reflexivity.
Qed.

Lemma latest_visit_heads_the_logs_witness :
  exists (b : bool) (older : list (LogEntry * PropRead Location)),
    verdict (fst (participate tick2 writes_ok phone2
                    (snd (participate tick1 writes_ok phone1 fresh)))) = Some b
    /\ fst (admin_logs
              (snd (participate tick2 writes_ok phone2
                      (snd (participate tick1 writes_ok phone1 fresh)))))
       = Normal (Json 200
           ((mkEntry (make_accessLog tick2 phone2) b,
             js_get LOCATIONS "gangnam") :: older)).
Proof.
  exact (latest_visit_heads_the_logs tick2 writes_ok phone2
           (snd (participate tick1 writes_ok phone1 fresh)) eq_refl eq_refl).
Defined.

(** ** One turn of a handler *)

Lemma resume_spec (clock : Clock) (io : Writes) (t : Task) (w : World) :
  resume clock io t w
  = match t with
    | Arrived req =>
        (Normal (if truthy (js_get LOCATIONS (Req.locationId req))
                 then AwaitWinners req
                 else Replied (JsonError 400 unknown_location)), w)
    | AwaitWinners req => (Normal (AwaitLogs req (stored_winners w)), w)
    | AwaitLogs req winners =>
        if truthy (js_get winners (Req.locationId req)) then
          (Normal (AwaitSaveLogs req false
                     (winner_accessTime (js_get winners (Req.locationId req)))
                     (push_and_trim (stored_logs w)
                        (mkEntry (make_accessLog clock req) false))),
           announce (AlreadyWon (printed_name req) (Req.clientIP req)) w)
        else
          (Normal (AwaitSaveWinners req (make_accessLog clock req)
                     (<[Req.locationId req :=
                          mkWinner (make_accessLog clock req) true]> winners)
                     (stored_logs w)),
           announce (NewWinner (printed_name req) (Req.clientIP req)) w)
    | AwaitSaveWinners req accessLog winners logs =>
        (Normal (AwaitSaveLogs req true JNull
                   (push_and_trim logs (mkEntry accessLog true))),
         after_save (winners_write io) WINNERS_FILE winners w)
    | AwaitSaveLogs req b winnerTime logs =>
        (Normal (Replied (participate_reply req b winnerTime)),
         after_save (logs_write io) LOGS_FILE logs w)
    | Replied reply => (Normal (Replied reply), w)
    | Crashed e => (Normal (Crashed e), w)
    end.
Proof.
  destruct t as [req|req|req winners|req accessLog winners logs
                 |req b winnerTime logs|reply|e]; cbn [resume].
  - destruct (truthy (js_get LOCATIONS (Req.locationId req))); reflexivity.
  - load_documents w. reflexivity.
  - load_documents w.
    destruct (truthy (js_get winners (Req.locationId req))); reflexivity.
  - unfold bind. rewrite saveData_spec. reflexivity.
  - unfold bind. rewrite saveData_spec. reflexivity.
  - reflexivity.
  - reflexivity.
Qed.

(** A handler never throws between two [await]s. *)
Lemma resume_returns (clock : Clock) (io : Writes) (t : Task) (w : World) :
  exists t' w', resume clock io t w = (Normal t', w').
Proof.
  rewrite resume_spec. destruct t; try (eexists _, _; reflexivity).
  destruct (truthy (js_get winners (Req.locationId req)));
    eexists _, _; reflexivity.
Qed.

(** A property of the world and of every handler in flight that each turn
    keeps is kept by every schedule. *)
Lemma schedule_invariant (P : World -> Prop) (Q : Task -> Prop) :
  (forall clock io t w t' w',
      P w -> Q t -> resume clock io t w = (Normal t', w') -> P w' /\ Q t') ->
  forall (schedule : list (nat * Clock * Writes)) (s : Server),
    P (world s) -> Forall Q (tasks s) ->
    P (world (run_schedule schedule s))
    /\ Forall Q (tasks (run_schedule schedule s)).
Proof.
  intros Hstep schedule.
  induction schedule as [|[[i clock] io] schedule IH]; intros s HP HQ;
    [split; assumption |].
  unfold run_schedule. cbn [foldl]. apply IH; unfold turn.
  - destruct (tasks s !! i) as [t|] eqn:Hi; [| exact HP].
    destruct (resume_returns clock io t (world s)) as (t' & w' & Hr).
    rewrite Hr. cbn [world].
    exact (proj1 (Hstep _ _ _ _ _ _ HP (Forall_lookup_1 _ _ _ _ HQ Hi) Hr)).
  - destruct (tasks s !! i) as [t|] eqn:Hi; [| exact HQ].
    destruct (resume_returns clock io t (world s)) as (t' & w' & Hr).
    rewrite Hr. cbn [tasks]. apply Forall_insert; [exact HQ |].
    exact (proj2 (Hstep _ _ _ _ _ _ HP (Forall_lookup_1 _ _ _ _ HQ Hi) Hr)).
Qed.

(** ** The winners document only names catalog locations *)

(** A name that passes the guard of line 89 and is not found in the winners
    document is a key of the catalog. *)
Lemma winning_key_in_catalog {V : Type} (winners : gmap string V) (k : string) :
  truthy (js_get LOCATIONS k) = true ->
  truthy (js_get winners k) = false ->
  is_Some (LOCATIONS !! k).
Proof.
  intros Hloc Hwin. apply falsy_iff in Hwin as [_ Hproto].
  unfold js_get in Hloc. destruct (LOCATIONS !! k) as [l|]; [eauto |].
  rewrite (bool_decide_eq_false_2 _ Hproto) in Hloc. discriminate.
Qed.

Lemma winners_in_catalog_empty : winners_in_catalog ∅.
Proof. intros k r H. rewrite lookup_empty in H. discriminate. Qed.

Lemma winners_in_catalog_insert (winners : gmap string WinnerRecord)
    (clock : Clock) (req : Req.t) :
  winners_in_catalog winners ->
  truthy (js_get LOCATIONS (Req.locationId req)) = true ->
  truthy (js_get winners (Req.locationId req)) = false ->
  winners_in_catalog
    (<[Req.locationId req := mkWinner (make_accessLog clock req) true]> winners).
Proof.
  intros Hwf Hloc Hwin k r Hk.
  destruct (decide (Req.locationId req = k)) as [<-|Hne].
  - rewrite lookup_insert_eq in Hk. injection Hk as <-.
    split; [exact (winning_key_in_catalog _ _ Hloc Hwin) | reflexivity].
  - rewrite lookup_insert_ne in Hk by exact Hne. exact (Hwf k r Hk).
Qed.

Lemma after_save_winners (fault : option Error)
    (data : gmap string WinnerRecord) (w : World) :
  stored_winners (after_save fault WINNERS_FILE data w)
  = match fault with None => data | Some _ => stored_winners w end.
Proof. destruct fault; reflexivity. Qed.

Lemma after_save_logs (fault : option Error) (data : list LogEntry) (w : World) :
  stored_logs (after_save fault LOGS_FILE data w)
  = match fault with None => data | Some _ => stored_logs w end.
Proof. destruct fault; reflexivity. Qed.

Lemma stored_winners_keeps (fault : option Error) (data : list LogEntry)
    (w : World) :
  stored_winners (after_save fault LOGS_FILE data w) = stored_winners w.
Proof. destruct fault; reflexivity. Qed.

Lemma stored_logs_keeps (fault : option Error)
    (data : gmap string WinnerRecord) (w : World) :
  stored_logs (after_save fault WINNERS_FILE data w) = stored_logs w.
Proof. destruct fault; reflexivity. Qed.

(** The documents after [POST /api/participate], in every case. *)
Lemma participate_winners (clock : Clock) (io : Writes) (req : Req.t) (w : World) :
  stored_winners (snd (participate clock io req w))
  = if truthy (js_get LOCATIONS (Req.locationId req))
       && negb (truthy (js_get (stored_winners w) (Req.locationId req)))
       && bool_decide (winners_write io = None)
    then <[Req.locationId req := mkWinner (make_accessLog clock req) true]>
           (stored_winners w)
    else stored_winners w.
Proof.
  destruct (truthy (js_get LOCATIONS (Req.locationId req))) eqn:Hloc;
    [| rewrite (participate_unknown _ _ _ _ Hloc); reflexivity].
  destruct (truthy (js_get (stored_winners w) (Req.locationId req))) eqn:Hwin.
  - rewrite (participate_later _ _ _ _ Hloc Hwin). cbn [snd andb negb].
    rewrite stored_winners_keeps. reflexivity.
  - rewrite (participate_first _ _ _ _ Hloc Hwin). cbn [snd andb negb].
    rewrite stored_winners_keeps, after_save_winners.
    destruct (winners_write io); reflexivity.
Qed.

Lemma participate_stored_logs (clock : Clock) (io : Writes) (req : Req.t)
    (w : World) :
  stored_logs (snd (participate clock io req w))
  = if truthy (js_get LOCATIONS (Req.locationId req))
       && bool_decide (logs_write io = None)
    then push_and_trim (stored_logs w)
           (mkEntry (make_accessLog clock req)
              (negb (truthy (js_get (stored_winners w) (Req.locationId req)))))
    else stored_logs w.
Proof.
  destruct (truthy (js_get LOCATIONS (Req.locationId req))) eqn:Hloc;
    [| rewrite (participate_unknown _ _ _ _ Hloc); reflexivity].
  destruct (truthy (js_get (stored_winners w) (Req.locationId req))) eqn:Hwin.
  - rewrite (participate_later _ _ _ _ Hloc Hwin). cbn [snd andb negb].
    rewrite after_save_logs. destruct (logs_write io); reflexivity.
  - rewrite (participate_first _ _ _ _ Hloc Hwin). cbn [snd andb negb].
    rewrite after_save_logs, stored_logs_keeps.
    destruct (logs_write io); reflexivity.
Qed.

Lemma serve_winners (c : Call) (w : World) :
  stored_winners (serve c w) = stored_winners w
  \/ (exists clock req,
        truthy (js_get LOCATIONS (Req.locationId req)) = true
        /\ truthy (js_get (stored_winners w) (Req.locationId req)) = false
        /\ stored_winners (serve c w)
           = <[Req.locationId req := mkWinner (make_accessLog clock req) true]>
               (stored_winners w))
  \/ stored_winners (serve c w) = ∅.
Proof.
  destruct c; cbn [serve].
  - left. reflexivity.
  - left. rewrite get_location_reads_only. reflexivity.
  - rewrite participate_winners.
    destruct (truthy (js_get LOCATIONS (Req.locationId req))) eqn:Hloc;
      [| left; reflexivity].
    destruct (truthy (js_get (stored_winners w) (Req.locationId req))) eqn:Hwin;
      [left; reflexivity |].
    destruct (bool_decide (winners_write io = None)); [| left; reflexivity].
    right. left. exists clock, req. auto.
  - left. rewrite admin_winners_reads_only. reflexivity.
  - left. rewrite admin_logs_reads_only. reflexivity.
  - rewrite admin_reset_world. unfold announce, stored_winners. cbn [disk].
    rewrite stored_winners_after_logs.
    destruct (winners_write io); [left | right; right]; reflexivity.
  - left. rewrite admin_stats_reads_only. reflexivity.
Qed.

Lemma serve_all_in_catalog (calls : list Call) (w : World) :
  winners_in_catalog (stored_winners w) ->
  winners_in_catalog (stored_winners (serve_all calls w)).
Proof.
  revert w. induction calls as [|c calls IH]; intros w Hwf; [exact Hwf |].
  cbn [serve_all foldl]. apply IH.
  destruct (serve_winners c w) as [-> | [(clock & req & Hloc & Hwin & ->) | ->]].
  - exact Hwf.
  - apply winners_in_catalog_insert; assumption.
  - apply winners_in_catalog_empty.
Qed.

Lemma resume_in_catalog (clock : Clock) (io : Writes) (t : Task) (w : World)
    (t' : Task) (w' : World) :
  winners_in_catalog (stored_winners w) ->
  task_in_catalog t ->
  resume clock io t w = (Normal t', w') ->
  winners_in_catalog (stored_winners w') /\ task_in_catalog t'.
Proof.
  intros HP HQ Hr. rewrite resume_spec in Hr.
  destruct t as [req|req|req winners|req accessLog winners logs
                 |req b winnerTime logs|reply|e]; cbn [task_in_catalog] in HQ.
  - injection Hr as <- <-. split; [exact HP |].
    destruct (truthy (js_get LOCATIONS (Req.locationId req))) eqn:Hloc;
      cbn [task_in_catalog]; [exact Hloc | exact I].
  - injection Hr as <- <-. split; [exact HP |]. split; assumption.
  - destruct HQ as [Hloc Hwf].
    destruct (truthy (js_get winners (Req.locationId req))) eqn:Hwin;
      injection Hr as <- <-; (split; [exact HP |]); cbn [task_in_catalog];
      [exact I |].
    apply winners_in_catalog_insert; assumption.
  - injection Hr as <- <-. split; [| exact I].
    rewrite after_save_winners. destruct (winners_write io); assumption.
  - injection Hr as <- <-. split; [| exact I].
    rewrite stored_winners_keeps. exact HP.
  - injection Hr as <- <-. split; [exact HP | exact I].
  - injection Hr as <- <-. split; [exact HP | exact I].
Qed.

(** X5: the winners document only ever names catalog locations.  If every
    record on disk is stored under a catalog key and marked [winner: true],
    this is still so after any sequence of calls, whatever their writes do,
    and after any schedule of participate handlers in flight together; an
    identifier that merely passes the guard, such as [constructor], never
    gets a record. *)
Theorem winners_stay_in_catalog (w : World) :
  winners_in_catalog (stored_winners w) ->
  (forall calls : list Call,
      winners_in_catalog (stored_winners (serve_all calls w)))
  /\ (forall (reqs : list Req.t) (schedule : list (nat * Clock * Writes)),
        winners_in_catalog
          (stored_winners
             (world (run_schedule schedule (mkServer w (map Arrived reqs)))))).
Proof.
  intros Hwf. split.
  - intros calls. apply serve_all_in_catalog. exact Hwf.
  - intros reqs schedule.
    refine (proj1 (schedule_invariant
                     (fun w => winners_in_catalog (stored_winners w))
                     task_in_catalog resume_in_catalog schedule
                     (mkServer w (map Arrived reqs)) Hwf _)).
    cbn [tasks]. apply Forall_forall. intros t Ht.
    apply list_elem_of_fmap in Ht as (req & -> & _). exact I.
Qed.

Lemma winners_stay_in_catalog_witness :
  winners_in_catalog
    (stored_winners
       (serve_all [ POST_participate tick1 writes_ok probe;
                    POST_participate tick2 writes_ok phone1;
                    POST_participate tick3 writes_ok phone3 ] fresh)).
Proof.
  exact (proj1 (winners_stay_in_catalog fresh winners_in_catalog_empty) _).
Defined.

(** X6: [GET /api/admin/winners] returns the records of the winners
    document, each one unchanged and with the catalog's answer for its key
    attached, and writes nothing; a record stored under the name [__proto__]
    is the one it leaves out.  When the document only names catalog
    locations, the view lists exactly its records and every item carries the
    location of its key, so a reader may use [winner.locationInfo.name] on
    each of them. *)
Theorem admin_winners_view (w : World) :
  exists view : gmap string (WinnerRecord * PropRead Location),
    admin_winners w = (Normal (Json 200 view), w)
    /\ (forall k : string,
          view !! k
          = if bool_decide (k = "__proto__") then None
            else (fun r => (r, js_get LOCATIONS k)) <$> stored_winners w !! k)
    /\ (winners_in_catalog (stored_winners w) ->
        (forall k : string,
            view !! k
            = (fun r => (r, js_get LOCATIONS k)) <$> stored_winners w !! k)
        /\ (forall (k : string) (r : WinnerRecord) (info : PropRead Location),
              view !! k = Some (r, info) ->
              exists l : Location, LOCATIONS !! k = Some l /\ info = Own l)).
Proof.
  eexists. split; [apply admin_winners_spec |].
  assert (Hview : forall k : string,
             map_imap (fun locationId winner =>
                         if bool_decide (locationId = "__proto__") then None
                         else Some (winner, js_get LOCATIONS locationId))
                      (stored_winners w) !! k
             = if bool_decide (k = "__proto__") then None
               else (fun r => (r, js_get LOCATIONS k)) <$> stored_winners w !! k).
  { intros k. rewrite map_lookup_imap.
    destruct (stored_winners w !! k), (bool_decide (k = "__proto__"));
      reflexivity. }
  split; [exact Hview |].
  intros Hwf.
  assert (Hall : forall k : string,
             map_imap (fun locationId winner =>
                         if bool_decide (locationId = "__proto__") then None
                         else Some (winner, js_get LOCATIONS locationId))
                      (stored_winners w) !! k
             = (fun r => (r, js_get LOCATIONS k)) <$> stored_winners w !! k).
  { intros k. rewrite Hview. case_bool_decide as Hk; [| reflexivity].
    destruct (stored_winners w !! k) as [r|] eqn:Hr; [| reflexivity].
    destruct (Hwf k r Hr) as ([l Hl] & _). subst k.
    vm_compute in Hl. discriminate Hl. }
  split; [exact Hall |].
  intros k r info Hk. rewrite Hall in Hk.
  destruct (stored_winners w !! k) as [r0|] eqn:Hr; [| discriminate].
  cbn in Hk. injection Hk as -> <-.
  destruct (Hwf k r Hr) as ([l Hl] & _).
  exists l. split; [exact Hl | apply js_get_own; exact Hl].
Qed.

Lemma admin_winners_view_witness :
  exists view : gmap string (WinnerRecord * PropRead Location),
    admin_winners (snd (participate tick1 writes_ok phone1 fresh))
    = (Normal (Json 200 view), snd (participate tick1 writes_ok phone1 fresh))
    /\ (forall k r info,
          view !! k = Some (r, info) ->
          exists l, LOCATIONS !! k = Some l /\ info = Own l).
Proof.
  destruct (admin_winners_view (snd (participate tick1 writes_ok phone1 fresh)))
    as (view & Hview & _ & Hinfo).
  exists view. split; [exact Hview |]. apply Hinfo.
  change (snd (participate tick1 writes_ok phone1 fresh))
    with (serve_all [POST_participate tick1 writes_ok phone1] fresh).
  apply serve_all_in_catalog. exact winners_in_catalog_empty.
Defined.

(** ** The log never outgrows its bound *)

Lemma push_and_trim_bounded (logs : list LogEntry) (accessLog : LogEntry) :
  (length (push_and_trim logs accessLog) <= 1000)%nat.
Proof. rewrite push_and_trim_most_recent, length_most_recent. lia. Qed.

Lemma serve_log_bounded (c : Call) (w : World) :
  (length (stored_logs w) <= 1000)%nat ->
  (length (stored_logs (serve c w)) <= 1000)%nat.
Proof.
  intros H. destruct c; cbn [serve].
  - exact H.
  - rewrite get_location_reads_only. exact H.
  - rewrite participate_stored_logs.
    destruct (_ && _); [apply push_and_trim_bounded | exact H].
  - rewrite admin_winners_reads_only. exact H.
  - rewrite admin_logs_reads_only. exact H.
  - rewrite admin_reset_world.
    change (stored_logs (announce ?l ?w0)) with (stored_logs w0).
    rewrite after_save_logs, stored_logs_keeps.
    destruct (logs_write io); [exact H | cbn; lia].
  - rewrite admin_stats_reads_only. exact H.
Qed.

Lemma resume_log_bounded (clock : Clock) (io : Writes) (t : Task) (w : World)
    (t' : Task) (w' : World) :
  (length (stored_logs w) <= 1000)%nat ->
  task_log_bounded t ->
  resume clock io t w = (Normal t', w') ->
  (length (stored_logs w') <= 1000)%nat /\ task_log_bounded t'.
Proof.
  intros HP HQ Hr. rewrite resume_spec in Hr.
  destruct t as [req|req|req winners|req accessLog winners logs
                 |req b winnerTime logs|reply|e]; cbn [task_log_bounded] in HQ.
  - injection Hr as <- <-. split; [exact HP |].
    destruct (truthy (js_get LOCATIONS (Req.locationId req))); exact I.
  - injection Hr as <- <-. split; [exact HP | exact I].
  - destruct (truthy (js_get winners (Req.locationId req)));
      injection Hr as <- <-; (split; [exact HP |]); cbn [task_log_bounded];
      [apply push_and_trim_bounded | exact I].
  - injection Hr as <- <-. split.
    + rewrite stored_logs_keeps. exact HP.
    + cbn [task_log_bounded]. apply push_and_trim_bounded.
  - injection Hr as <- <-. split; [| exact I].
    rewrite after_save_logs. destruct (logs_write io); assumption.
  - injection Hr as <- <-. split; [exact HP | exact I].
  - injection Hr as <- <-. split; [exact HP | exact I].
Qed.

(** X7: the access log never outgrows 1000 entries.  A log within the bound
    stays within it after any sequence of calls, whatever their writes do,
    and after any schedule of participate handlers in flight together. *)
Theorem log_stays_bounded (w : World) :
  (length (stored_logs w) <= 1000)%nat ->
  (forall calls : list Call,
      (length (stored_logs (serve_all calls w)) <= 1000)%nat)
  /\ (forall (reqs : list Req.t) (schedule : list (nat * Clock * Writes)),
        (length (stored_logs
                   (world (run_schedule schedule
                             (mkServer w (map Arrived reqs))))) <= 1000)%nat).
Proof.
  intros Hlen. split.
  - intros calls. revert w Hlen.
    induction calls as [|c calls IH]; intros w Hlen; [exact Hlen |].
    cbn [serve_all foldl]. apply IH, serve_log_bounded, Hlen.
  - intros reqs schedule.
    refine (proj1 (schedule_invariant
                     (fun w => (length (stored_logs w) <= 1000)%nat)
                     task_log_bounded resume_log_bounded schedule
                     (mkServer w (map Arrived reqs)) Hlen _)).
    cbn [tasks]. apply Forall_forall. intros t Ht.
    apply list_elem_of_fmap in Ht as (req & -> & _). exact I.
Qed.

Lemma log_stays_bounded_witness :
  (length (stored_logs
             (world (run_schedule (alternate tick1 tick2)
                       (mkServer (serve_all (map visit_call rush) fresh)
                          (map Arrived [phone1; phone3]))))) <= 1000)%nat.
Proof.
  refine (proj2 (log_stays_bounded (serve_all (map visit_call rush) fresh) _) _ _).
  apply Nat.leb_le. vm_compute. reflexivity.
Defined.

(** ** No request is left unanswered *)






(** ** Restarting the process *)

(** X10: a winner survives a restart.  When the first visitor of a catalog
    location has won and winners.json was written, the location query after a
    restart of the process reports [hasWinner = true] with the time that
    visitor reported, together with the catalog's name, prize and emoji. *)
Theorem winner_survives_restart (clock : Clock) (io : Writes) (req : Req.t)
    (l : Location) (w : World) :
  LOCATIONS !! Req.locationId req = Some l ->
  stored_winners w !! Req.locationId req = None ->
  winners_write io = None ->
  let w1 := restart (snd (participate clock io req w)) in
  verdict (fst (participate clock io req w)) = Some true
  /\ get_location (Req.locationId req) w1
     = (Normal (Json 200
          {| LocationInfo.name := JStr (name l);
             LocationInfo.prize := JStr (prize l);
             LocationInfo.emoji := JStr (emoji l);
             LocationInfo.locationId := Req.locationId req;
             LocationInfo.hasWinner := true;
             LocationInfo.winnerTime := Req.accessTime req |}),
        w1).
Proof.
  intros Hl Hnone Hok w1.
  assert (Hloc : truthy (js_get LOCATIONS (Req.locationId req)) = true)
    by exact (truthy_own _ _ _ Hl).
  assert (Hwin : truthy (js_get (stored_winners w) (Req.locationId req)) = false).
  { apply falsy_iff. split; [exact Hnone |].
    exact (catalog_key_not_inherited _ _ Hl). }
  split; [rewrite (participate_first _ _ _ _ Hloc Hwin); reflexivity |].
  assert (Hrec : stored_winners w1 !! Req.locationId req
                 = Some (mkWinner (make_accessLog clock req) true)).
  { subst w1. change (stored_winners (restart ?x)) with (stored_winners x).
    rewrite participate_winners, Hloc, Hwin, Hok.
    cbn [negb andb]. rewrite bool_decide_eq_true_2 by reflexivity.
    apply lookup_insert_eq. }
  rewrite get_location_spec, (js_get_own _ _ _ Hl), (js_get_own _ _ _ Hrec).
  reflexivity.
Qed.

Lemma winner_survives_restart_witness :
  get_location "gangnam" (restart (snd (participate tick1 writes_ok phone1 fresh)))
  = (Normal (Json 200
       {| LocationInfo.name := JStr "강남역";
          LocationInfo.prize := JStr "스타벅스 아메리카노";
          LocationInfo.emoji := JStr "☕";
          LocationInfo.locationId := "gangnam";
          LocationInfo.hasWinner := true;
          LocationInfo.winnerTime := JStr "2024-01-01T00:00:00.000Z" |}),
     restart (snd (participate tick1 writes_ok phone1 fresh))).
Proof.
  exact (proj2 (winner_survives_restart tick1 writes_ok phone1
                  (mkLocation "강남역" "스타벅스 아메리카노" "☕") fresh
                  eq_refl eq_refl eq_refl)).
Defined.

(** X11: the location query and the adjudication agree.  On any disk, for
    an identifier that passes the guards, a visit is answered
    [isWinner = true] exactly when the query just before it reports
    [hasWinner = false]; otherwise both show the same [winnerTime]. *)
Theorem query_predicts_verdict (clock : Clock) (io : Writes) (req : Req.t)
    (w : World) :
  truthy (js_get LOCATIONS (Req.locationId req)) = true ->
  exists (info : LocationInfo.t) (body : Participated.t),
    get_location (Req.locationId req) w = (Normal (Json 200 info), w)
    /\ fst (participate clock io req w) = Normal (Json 200 body)
    /\ Participated.isWinner body = negb (LocationInfo.hasWinner info)
    /\ (LocationInfo.hasWinner info = true ->
        Participated.winnerTime body = LocationInfo.winnerTime info).
Proof.
  intros Hloc. rewrite get_location_spec, Hloc.
  destruct (truthy (js_get (stored_winners w) (Req.locationId req))) eqn:Hwin.
  - rewrite (participate_later _ _ _ _ Hloc Hwin). unfold participate_reply.
    eexists _, _. split; [reflexivity |]. split; [reflexivity |].
    cbn. auto.
  - rewrite (participate_first _ _ _ _ Hloc Hwin). unfold participate_reply.
    eexists _, _. split; [reflexivity |]. split; [reflexivity |].
    cbn. split; [reflexivity | discriminate].
Qed.

Lemma query_predicts_verdict_witness :
  exists (info : LocationInfo.t) (body : Participated.t),
    get_location "gangnam" (snd (participate tick1 writes_ok phone1 fresh))
    = (Normal (Json 200 info), snd (participate tick1 writes_ok phone1 fresh))
    /\ fst (participate tick2 writes_ok phone2
              (snd (participate tick1 writes_ok phone1 fresh)))
       = Normal (Json 200 body)
    /\ Participated.isWinner body = negb (LocationInfo.hasWinner info)
    /\ (LocationInfo.hasWinner info = true ->
        Participated.winnerTime body = LocationInfo.winnerTime info).
Proof.
  exact (query_predicts_verdict tick2 writes_ok phone2
           (snd (participate tick1 writes_ok phone1 fresh)) eq_refl).
Defined.

(** ** Sums over the statistics *)

Lemma LOCATIONS_keys_NoDup : NoDup LOCATIONS_keys.
Proof. apply (bool_decide_unpack _). vm_compute. exact I. Qed.

Lemma indicator_sum (keys : list string) (a : string) :
  NoDup keys ->
  sum_list (map (fun k => if decide (a = k) then 1 else 0)%nat keys)
  = (if decide (a ∈ keys) then 1 else 0)%nat.
Proof.
  induction 1 as [|k keys Hnin Hnd IH]; [reflexivity |].
  cbn [map sum_list]. rewrite IH.
  destruct (decide (a = k)) as [->|Hne].
  - rewrite decide_False by exact Hnin.
    rewrite decide_True by (apply elem_of_cons; left; reflexivity). reflexivity.
  - destruct (decide (a ∈ keys)) as [Hin|Hnin'].
    + rewrite decide_True by (apply elem_of_cons; right; exact Hin). reflexivity.
    + rewrite decide_False; [reflexivity |].
      intros Hin. apply elem_of_cons in Hin as [?|?]; contradiction.
Qed.

Lemma counts_add_up (keys : list string) (logs : list LogEntry) :
  NoDup keys ->
  sum_list (map (fun k =>
                   length (filter (fun log => Log.locationId (l_log log) = k) logs))
                keys)
  = length (filter (fun log => Log.locationId (l_log log) ∈ keys) logs).
Proof.
  intros Hnd. induction logs as [|x logs IH].
  - cbn. induction keys; [reflexivity |]. cbn. 
    rewrite IHkeys; [reflexivity |]. apply NoDup_cons in Hnd. tauto.
  - rewrite filter_cons.
    assert (Hsplit :
      sum_list (map (fun k =>
                       length (filter (fun log => Log.locationId (l_log log) = k)
                                      (x :: logs))) keys)
      = (sum_list (map (fun k => if decide (Log.locationId (l_log x) = k)
                                 then 1 else 0)%nat keys)
         + sum_list (map (fun k =>
                            length (filter
                                      (fun log => Log.locationId (l_log log) = k)
                                      logs)) keys))%nat).
    { clear. induction keys as [|k keys IHk]; [reflexivity |].
      cbn [map sum_list]. rewrite IHk, filter_cons.
      destruct (decide (Log.locationId (l_log x) = k)); cbn [length];
        unfold id; lia. }
    rewrite Hsplit, IH, (indicator_sum _ _ Hnd).
    destruct (decide (Log.locationId (l_log x) ∈ keys)); reflexivity.
Qed.

Lemma filter_keeps_all {A : Type} (P : A -> Prop) `{!forall x, Decision (P x)}
    (l : list A) :
  length (filter P l) = length l <-> Forall P l.
Proof.
  split.
  - intros Hlen. apply Forall_forall. intros x Hx.
    destruct (decide (P x)) as [HP|HnP]; [exact HP |].
    pose proof (length_filter_lt P l x Hx HnP). lia.
  - induction 1 as [|x l HP Hall IH]; [reflexivity |].
    rewrite filter_cons, decide_True by exact HP. cbn [length]. lia.
Qed.

Lemma listed_key_in_catalog (k : string) :
  k ∈ LOCATIONS_keys -> is_Some (LOCATIONS !! k).
Proof.
  unfold LOCATIONS_keys, LOCATIONS_entries. cbn [fmap list_fmap fst].
  rewrite !elem_of_cons, elem_of_nil.
  intros [->|[->|[->|[->|[->|[]]]]]]; eexists; reflexivity.
Qed.

Lemma counted_visits_spec (winners : gmap string WinnerRecord)
    (logs : list LogEntry) :
  counted_visits (make_stats winners logs)
  = sum_list (map (fun k =>
                     length (filter (fun log => Log.locationId (l_log log) = k)
                                    logs))
                  LOCATIONS_keys).
Proof.
  unfold counted_visits. apply (f_equal sum_list). apply map_ext_in.
  intros k Hk. apply list_elem_of_In in Hk.
  cbn [make_stats Stats.participantsByLocation]. rewrite tally_lookup.
  destruct (listed_key_in_catalog k Hk) as [l ->].
  rewrite (bool_decide_eq_true_2 _ Hk). reflexivity.
Qed.

(** X12: what the per-location counts add up to.  The counts of the
    statistics view, added over the catalog, give the number of log entries
    whose [locationId] is a catalog key; this never exceeds
    [totalParticipants] and equals it exactly when every logged visit names a
    catalog location. *)
Theorem stats_counts_add_up (w : World) :
  let stats := make_stats (stored_winners w) (stored_logs w) in
  fst (admin_stats w) = Normal (Json 200 stats)
  /\ counted_visits stats = length (catalog_visits (stored_logs w))
  /\ (counted_visits stats <= Stats.totalParticipants stats)%nat
  /\ (counted_visits stats = Stats.totalParticipants stats
      <-> Forall (fun log => Log.locationId (l_log log) ∈ LOCATIONS_keys)
                 (stored_logs w)).
Proof.
  intros stats.
  assert (Hsum : counted_visits stats = length (catalog_visits (stored_logs w))).
  { subst stats. rewrite counted_visits_spec.
    apply (counts_add_up _ _ LOCATIONS_keys_NoDup). }
  split; [rewrite admin_stats_spec; reflexivity |].
  split; [exact Hsum |].
  rewrite Hsum. subst stats. cbn [make_stats Stats.totalParticipants].
  unfold catalog_visits. split; [apply length_filter |].
  apply filter_keeps_all.
Qed.

(** ** Reset, then a new event *)

Lemma falsy_catalog (winners : gmap string WinnerRecord) (k : string)
    (l : Location) :
  LOCATIONS !! k = Some l ->
  winners !! k = None ->
  truthy (js_get winners k) = false.
Proof.
  intros Hl Hnone. apply falsy_iff. split; [exact Hnone |].
  exact (catalog_key_not_inherited _ _ Hl).
Qed.

(** X13: a reset reopens every location.  After a reset whose write of
    winners.json succeeds, the next visitor of any catalog location wins,
    whoever had won it before: the reply is [isWinner = true] with the
    catalog's name, prize and emoji, the time the client sent and no
    [winnerTime]. *)
Theorem reset_reopens_every_location (ior io : Writes) (clock : Clock)
    (req : Req.t) (l : Location) (w : World) :
  LOCATIONS !! Req.locationId req = Some l ->
  winners_write ior = None ->
  fst (participate clock io req (snd (admin_reset ior w)))
  = Normal (Json 200
      {| Participated.isWinner := true;
         Participated.locationName := JStr (name l);
         Participated.prize := JStr (prize l);
         Participated.emoji := JStr (emoji l);
         Participated.accessTime := Req.accessTime req;
         Participated.winnerTime := JNull |}).
Proof.
  intros Hl Hok.
  assert (Hempty : stored_winners (snd (admin_reset ior w)) = ∅).
  { rewrite admin_reset_world.
    change (stored_winners (announce ?x ?w0)) with (stored_winners w0).
    rewrite stored_winners_keeps, after_save_winners, Hok. reflexivity. }
  rewrite (participate_first _ _ _ _ (truthy_own _ _ _ Hl)).
  - cbn [fst]. unfold participate_reply. rewrite (js_get_own _ _ _ Hl). reflexivity.
  - apply (falsy_catalog _ _ _ Hl). rewrite Hempty. apply lookup_empty.
Qed.

Lemma reset_reopens_every_location_witness :
  fst (participate tick2 writes_ok phone2
         (snd (admin_reset writes_ok
                 (snd (participate tick1 writes_ok phone1 fresh)))))
  = Normal (Json 200
      {| Participated.isWinner := true;
         Participated.locationName := JStr "강남역";
         Participated.prize := JStr "스타벅스 아메리카노";
         Participated.emoji := JStr "☕";
         Participated.accessTime := JStr "2024-01-01T00:00:06.100Z";
         Participated.winnerTime := JNull |}).
Proof.
  exact (reset_reopens_every_location writes_ok writes_ok tick2 phone2
           (mkLocation "강남역" "스타벅스 아메리카노" "☕")
           (snd (participate tick1 writes_ok phone1 fresh)) eq_refl eq_refl).
Defined.

(** ** A win that is not written *)

Lemma verdict_of_participate (clock : Clock) (io : Writes) (req : Req.t)
    (w : World) :
  verdict (fst (participate clock io req w))
  = if truthy (js_get LOCATIONS (Req.locationId req))
    then Some (negb (truthy (js_get (stored_winners w) (Req.locationId req))))
    else None.
Proof.
  destruct (truthy (js_get LOCATIONS (Req.locationId req))) eqn:Hloc;
    [| rewrite (participate_unknown _ _ _ _ Hloc); reflexivity].
  destruct (truthy (js_get (stored_winners w) (Req.locationId req))) eqn:Hwin.
  - rewrite (participate_later _ _ _ _ Hloc Hwin). reflexivity.
  - rewrite (participate_first _ _ _ _ Hloc Hwin). reflexivity.
Qed.

(** X14: when the write of winners.json fails for the first visitor of a
    catalog location, that visitor is answered [isWinner = true], and the
    next visitor of the same location is answered [isWinner = true] as well,
    whether the failed write has left the file as it was or has left it
    unreadable. *)
Theorem unwritten_win_is_won_again (clock1 clock2 : Clock) (io1 io2 : Writes)
    (first second : Req.t) (l : Location) (e : Error) (w : World) :
  LOCATIONS !! Req.locationId first = Some l ->
  Req.locationId second = Req.locationId first ->
  stored_winners w !! Req.locationId first = None ->
  winners_write io1 = Some e ->
  let w1 := snd (participate clock1 io1 first w) in
  verdict (fst (participate clock1 io1 first w)) = Some true
  /\ verdict (fst (participate clock2 io2 second w1)) = Some true
  /\ verdict
       (fst (participate clock2 io2 second
               (mkWorld (mkDisk None (logs_json (disk w1))) (console w1))))
     = Some true.
Proof.
  intros Hl Hsame Hnone Hfail w1.
  pose proof (truthy_own _ _ _ Hl) as Hloc.
  pose proof (falsy_catalog _ _ _ Hl Hnone) as Hwin.
  assert (Hkept : stored_winners w1 = stored_winners w).
  { subst w1. rewrite participate_winners, Hloc, Hwin, Hfail. reflexivity. }
  split; [rewrite verdict_of_participate, Hloc, Hwin; reflexivity |].
  rewrite <- Hsame in Hloc, Hl.
  split.
  - rewrite verdict_of_participate, Hloc, Hkept, Hsame, Hwin. reflexivity.
  - rewrite verdict_of_participate, Hloc.
    change (stored_winners (mkWorld (mkDisk None ?x) ?y))
      with (∅ : gmap string WinnerRecord).
    rewrite (falsy_catalog _ _ _ Hl (lookup_empty _)). reflexivity.
Qed.

Lemma unwritten_win_is_won_again_witness :
  verdict (fst (participate tick1 (mkWrites (Some write_denied) None) phone1 fresh))
  = Some true
  /\ verdict (fst (participate tick2 writes_ok phone2
                     (snd (participate tick1 (mkWrites (Some write_denied) None)
                             phone1 fresh))))
     = Some true.
Proof.
  destruct (unwritten_win_is_won_again tick1 tick2
              (mkWrites (Some write_denied) None) writes_ok phone1 phone2
              (mkLocation "강남역" "스타벅스 아메리카노" "☕") write_denied fresh
              eq_refl eq_refl eq_refl eq_refl) as (H1 & H2 & _).
  split; assumption.
Defined.

(** ** Visits to different locations *)




(** ** Every route answers, and the GET routes write nothing *)


(** X17: the GET routes only read.  Whatever is on disk, also when a data
    file is missing or unreadable, the five GET routes leave the files and the
    console exactly as they found them; a refused adjudication does so too. *)
Theorem get_routes_write_nothing (w : World) :
  snd (get_locations w) = w
  /\ (forall locationId, snd (get_location locationId w) = w)
  /\ snd (admin_winners w) = w
  /\ snd (admin_logs w) = w
  /\ snd (admin_stats w) = w
  /\ (forall clock io req,
        status_of (fst (participate clock io req w)) = Some 400 ->
        snd (participate clock io req w) = w).
Proof.
  split; [reflexivity |].
  split; [intros locationId; apply get_location_reads_only |].
  split; [apply admin_winners_reads_only |].
  split; [apply admin_logs_reads_only |].
  split; [apply admin_stats_reads_only |].
  intros clock io req Hst.
  destruct (truthy (js_get LOCATIONS (Req.locationId req))) eqn:Hloc;
    [| rewrite (participate_unknown _ _ _ _ Hloc); reflexivity].
  exfalso.
  destruct (truthy (js_get (stored_winners w) (Req.locationId req))) eqn:Hwin.
  - rewrite (participate_later _ _ _ _ Hloc Hwin) in Hst. discriminate.
  - rewrite (participate_first _ _ _ _ Hloc Hwin) in Hst. discriminate.
Qed.

Lemma get_routes_write_nothing_witness :
  snd (participate tick1 writes_ok
         (Req.mk "busan" JUndefined JUndefined "203.0.113.7") fresh) = fresh.
Proof.
  apply (proj2 (proj2 (proj2 (proj2 (proj2 (get_routes_write_nothing fresh)))))).
  reflexivity.
Defined.

(** ** First come, first served *)

Lemma verdict_spec (clock : Clock) (io : Writes) (req : Req.t) (w : World) :
  verdict (fst (participate clock io req w))
  = if truthy (js_get LOCATIONS (Req.locationId req))
    then Some (negb (truthy (js_get (stored_winners w) (Req.locationId req))))
    else None.
Proof.
  destruct (truthy (js_get LOCATIONS (Req.locationId req))) eqn:Hloc;
    [| rewrite (participate_unknown _ _ _ _ Hloc); reflexivity].
  destruct (truthy (js_get (stored_winners w) (Req.locationId req))) eqn:Hwin.
  - rewrite (participate_later _ _ _ _ Hloc Hwin). reflexivity.
  - rewrite (participate_first _ _ _ _ Hloc Hwin). reflexivity.
Qed.

(** X18: first come, first served.  When visits to catalog locations are
    served one after the other and every write of winners.json succeeds, the
    verdicts are those of the first-come rule: a visit is answered
    [isWinner = true] exactly when its location had no winner on disk at the
    start and no earlier visit of the sequence named it. *)
Theorem served_first_come_first_served (visits : list Visit) (w : World)
    (taken : list string) :
  (forall k : string, k ∈ taken <-> is_Some (stored_winners w !! k)) ->
  Forall recorded visits ->
  map verdict (fst (serve_visits visits w)) = first_come taken visits.
Proof.
  revert w taken. induction visits as [|[[clock io] req] visits IH];
    intros w taken Htaken Hall; [reflexivity |].
  apply Forall_cons in Hall as [[[l Hl] Hok] Hrest]. cbn [fst snd] in Hl, Hok.
  cbn [serve_visits first_come fst snd].
  pose proof (verdict_spec clock io req w) as Hv.
  pose proof (participate_winners clock io req w) as Hw.
  destruct (participate clock io req w) as [reply w1]. cbn [fst snd] in Hv, Hw.
  specialize (IH w1 (Req.locationId req :: taken)).
  destruct (serve_visits visits w1) as [replies w2]. cbn [fst map] in *.
  rewrite (truthy_own _ _ _ Hl) in Hv, Hw.
  rewrite (hasWinner_catalog _ _ _ Hl) in Hv, Hw.
  rewrite (bool_decide_eq_true_2 _ Hok) in Hw.
  cbn [andb] in Hw. rewrite andb_true_r in Hw.
  f_equal.
  - rewrite Hv. f_equal. rewrite <- bool_decide_not.
    apply bool_decide_ext. rewrite Htaken. tauto.
  - apply IH; [| exact Hrest].
    intros k. rewrite Hw, elem_of_cons.
    destruct (bool_decide (is_Some (stored_winners w !! Req.locationId req)))
      eqn:Hhas; cbn [negb].
    + apply bool_decide_eq_true in Hhas. rewrite Htaken.
      split; [intros [->|H]; assumption | auto].
    + rewrite Htaken. destruct (decide (k = Req.locationId req)) as [->|Hne].
      * rewrite lookup_insert_eq. split; eauto.
      * rewrite lookup_insert_ne by congruence. tauto.
Qed.

Lemma served_first_come_first_served_witness :
  map verdict
    (fst (serve_visits [ (tick1, writes_ok, phone1); (tick2, writes_ok, phone3);
                         (tick3, writes_ok, phone2) ] fresh))
  = [Some true; Some true; Some false].
Proof.
  refine (served_first_come_first_served
            [ (tick1, writes_ok, phone1); (tick2, writes_ok, phone3);
              (tick3, writes_ok, phone2) ] fresh [] _ _).
  - intros k. rewrite elem_of_nil. split; [contradiction |].
    intros [r Hr]. change (stored_winners fresh) with (∅ : gmap string WinnerRecord) in Hr.
    rewrite lookup_empty in Hr. discriminate.
  - repeat constructor; eexists; reflexivity.
Defined.

(** ** Two handlers in flight together *)

Lemma run_schedule_cons (i : nat) (clock : Clock) (io : Writes)
    (schedule : list (nat * Clock * Writes)) (s : Server) :
  run_schedule ((i, clock, io) :: schedule) s
  = run_schedule schedule (turn i clock io s).
Proof. reflexivity. Qed.

Lemma turn_first (clock : Clock) (io : Writes) (t0 t1 t0' : Task) (w w' : World) :
  resume clock io t0 w = (Normal t0', w') ->
  turn 0 clock io (mkServer w [t0; t1]) = mkServer w' [t0'; t1].
Proof. intros H. unfold turn. cbn [tasks world lookup list_lookup]. rewrite H. reflexivity. Qed.

Lemma turn_second (clock : Clock) (io : Writes) (t0 t1 t1' : Task) (w w' : World) :
  resume clock io t1 w = (Normal t1', w') ->
  turn 1 clock io (mkServer w [t0; t1]) = mkServer w' [t0; t1'].
Proof. intros H. unfold turn. cbn [tasks world lookup list_lookup]. rewrite H. reflexivity. Qed.

(** One turn of the first, or of the second, of two handlers; the guards
    are decided by the hypotheses at hand. *)
Ltac settle_guards :=
  rewrite resume_spec;
  repeat match goal with H : truthy _ = _ |- _ => rewrite H end;
  reflexivity.

Ltac turn0 := rewrite run_schedule_cons; erewrite turn_first by settle_guards.
Ltac turn1 := rewrite run_schedule_cons; erewrite turn_second by settle_guards.

(** X19: two visits in flight together.  When two accepted requests are
    resumed in alternation, each reply is decided on winners.json as it was
    before either of them wrote: the verdict and the [winnerTime] of both are
    those a single visitor would have got on the initial document, so two
    first visitors of one location are both answered [isWinner = true]. *)
Theorem in_flight_together (c0 c1 : Clock) (r0 r1 : Req.t) (w : World) :
  truthy (js_get LOCATIONS (Req.locationId r0)) = true ->
  truthy (js_get LOCATIONS (Req.locationId r1)) = true ->
  let s := run_schedule (alternate c0 c1) (mkServer w [Arrived r0; Arrived r1]) in
  map (fun t => Normal <$> match t with Replied reply => Some reply | _ => None end)
      (tasks s)
  = [ Some (fst (participate c0 writes_ok r0 w));
      Some (fst (participate c1 writes_ok r1 w)) ]
  /\ map task_verdict (tasks s)
     = [ Some (negb (truthy (js_get (stored_winners w) (Req.locationId r0))));
         Some (negb (truthy (js_get (stored_winners w) (Req.locationId r1)))) ].
Proof.
  intros Hl0 Hl1 s. subst s.
  unfold alternate. cbn [replicate concat app].
  destruct (truthy (js_get (stored_winners w) (Req.locationId r0))) eqn:Hw0;
    destruct (truthy (js_get (stored_winners w) (Req.locationId r1))) eqn:Hw1;
    turn0; turn1; turn0; turn1; turn0; turn1; turn0; turn1; turn0; turn1;
    cbn [negb tasks map task_verdict verdict fmap option_fmap option_map];
    first [ rewrite (participate_later c0 writes_ok r0 w Hl0 Hw0)
          | rewrite (participate_first c0 writes_ok r0 w Hl0 Hw0) ];
    first [ rewrite (participate_later c1 writes_ok r1 w Hl1 Hw1)
          | rewrite (participate_first c1 writes_ok r1 w Hl1 Hw1) ];
    split; reflexivity.
Qed.

Lemma in_flight_together_witness :
  map task_verdict
    (tasks (run_schedule (alternate tick1 tick2)
              (mkServer fresh [Arrived phone1; Arrived phone2])))
  = [Some true; Some true].
Proof.
  exact (proj2 (in_flight_together tick1 tick2 phone1 phone2 fresh
                  eq_refl eq_refl)).
Defined.

(** ** A reset that half fails *)

(** X20: the two writes of a reset are independent.  Each document is
    emptied when its own write succeeds, whatever happens to the other write;
    each failure is printed, the reset is announced on the console all the
    same, and the reply is the confirmation in every case. *)
Theorem reset_writes_are_independent (io : Writes) (w : World) :
  let w' := snd (admin_reset io w) in
  fst (admin_reset io w) = Normal (Json 200 reset_done)
  /\ (winners_write io = None -> winners_json (disk w') = Some ∅)
  /\ (logs_write io = None -> logs_json (disk w') = Some [])
  /\ console w'
     = (console w ++ save_report (winners_write io)
          ++ save_report (logs_write io) ++ [EventReset])%list.
Proof.
  intros w'. subst w'.
  unfold admin_reset, try_catch, admin_reset_try, bind.
  rewrite !saveData_spec. unfold console_print, ret. cbn [fst snd].
  split; [reflexivity |].
  split; [intros ->; destruct (logs_write io); reflexivity |].
  split; [intros ->; destruct (winners_write io); reflexivity |].
  destruct (winners_write io), (logs_write io); cbn;
    rewrite <- ?app_assoc; reflexivity.
Qed.

Lemma reset_writes_are_independent_witness :
  logs_json
    (disk (snd (admin_reset (mkWrites (Some write_denied) None)
                  (snd (participate tick1 writes_ok phone1 fresh)))))
  = Some [].
Proof.
  exact (proj1 (proj2 (proj2 (reset_writes_are_independent
                                (mkWrites (Some write_denied) None)
                                (snd (participate tick1 writes_ok phone1 fresh)))))
           eq_refl).
Defined.

(** ** Winners in the statistics *)

Lemma filter_ext_elem {A : Type} (P Q : A -> Prop)
    `{!forall x, Decision (P x)} `{!forall x, Decision (Q x)} (l : list A) :
  (forall x, x ∈ l -> (P x <-> Q x)) -> filter P l = filter Q l.
Proof.
  induction l as [|x l IH]; intros Hext; [reflexivity |].
  rewrite !filter_cons.
  rewrite IH by (intros y Hy; apply Hext, elem_of_cons; right; exact Hy).
  assert (Hx : P x <-> Q x) by (apply Hext, elem_of_cons; left; reflexivity).
  destruct (decide (P x)), (decide (Q x)); tauto.
Qed.

Lemma flagged_locations_spec (winners : gmap string WinnerRecord)
    (logs : list LogEntry) :
  flagged_locations (make_stats winners logs)
  = filter (fun k => is_Some (winners !! k)) LOCATIONS_keys.
Proof.
  unfold flagged_locations. apply filter_ext_elem. intros k Hin.
  cbn [make_stats Stats.participantsByLocation]. rewrite tally_lookup.
  destruct (listed_key_in_catalog k Hin) as [l Hk]. rewrite Hk.
  rewrite (bool_decide_eq_true_2 _ Hin). cbn [from_option Stats.hasWinner].
  rewrite (hasWinner_catalog _ _ _ Hk). apply bool_decide_eq_true.
Qed.

(** X21: the winners in the statistics.  When the winners document only
    names catalog locations, [winnersCount] is the number of locations the
    view flags with [hasWinner], and it never exceeds [totalLocations]. *)
Theorem winners_count_is_flagged (w : World) :
  winners_in_catalog (stored_winners w) ->
  let stats := make_stats (stored_winners w) (stored_logs w) in
  fst (admin_stats w) = Normal (Json 200 stats)
  /\ Stats.winnersCount stats = length (flagged_locations stats)
  /\ (Stats.winnersCount stats <= Stats.totalLocations stats)%nat.
Proof.
  intros Hwf stats.
  assert (Hcount : Stats.winnersCount stats = length (flagged_locations stats)).
  { subst stats. rewrite flagged_locations_spec.
    cbn [make_stats Stats.winnersCount].
    rewrite <- (size_dom (D := gset string)).
    rewrite <- (size_list_to_set (C := gset string))
      by (apply NoDup_filter, LOCATIONS_keys_NoDup).
    f_equal. apply set_eq. intros k.
    rewrite elem_of_dom, elem_of_list_to_set, list_elem_of_filter.
    split; [| tauto].
    intros [r Hr]. split; [eauto |].
    destruct (Hwf k r Hr) as ([l Hl] & _).
    exact (catalog_key_listed _ _ Hl). }
  split; [rewrite admin_stats_spec; reflexivity |].
  split; [exact Hcount |].
  rewrite Hcount. unfold flagged_locations.
  subst stats. cbn [make_stats Stats.totalLocations]. apply length_filter.
Qed.

Lemma winners_count_is_flagged_witness :
  let w := serve_all [ POST_participate tick1 writes_ok phone1;
                       POST_participate tick2 writes_ok probe ] fresh in
  Stats.winnersCount (make_stats (stored_winners w) (stored_logs w))
  = length (flagged_locations (make_stats (stored_winners w) (stored_logs w))).
Proof.
  intros w.
  refine (proj1 (proj2 (winners_count_is_flagged w _))).
  apply serve_all_in_catalog. exact winners_in_catalog_empty.
Defined.
